(** * Gopher: context construction, token budgeting and the repair round loop

    A shallow embedding of the Python sources of the Gopher repair pipeline

      - [Gopher/analysis/dual_layer_conetxt.py]  (ContextBuilder)
      - [Gopher/analysis/PCSC.py]                (PeripheralContextExtractor)
      - [Gopher/analysis/FDS.py]                 (FocusedSlicer)
      - [Gopher/LLM/token_manager.py]            (TokenManager)
      - [Gopher/LLM/client.py]                   (retry_with_backoff)
      - [Gopher/execution/file_manager.py]       (FileManager)
      - [Gopher/workflow.py]                     (GopherWorkflow)
      - [Gopher/core/artifact.py]                (BuggyArtifact, RepairSession)
      - [Gopher/prompting/composer.py]           (PromptComposer)
      - [Gopher/execution/test_runner.py]        (TestRunner)
      - [main_generator.py]                      (the loop over the artifacts)

    Python [str] is modelled by [string] (code points below 256), Python [int]
    by [Z], [set] by [gset], [list] by [list]; a Python exception is an
    explicit result value.  External collaborators (tokenizer, JSON decoder,
    completion service, test runner) are parameters. *)

From Stdlib Require Import ZArith Ascii.
From Stdlib Require String QArith.
From stdpp Require Import base numbers option list list_numbers sorting gmap sets strings pretty.

Local Open Scope Z_scope.

(** ** Python string primitives used by the sources *)
Module PyStr.

Definition LF : string := String (ascii_of_nat 10) EmptyString.

Definition code (c : ascii) : nat := nat_of_ascii c.

(** Line boundaries of [str.splitlines] (those below code point 256). *)
Definition is_line_boundary (c : ascii) : bool :=
  let n := code c in
  ((10 <=? n) && (n <=? 13))%nat || ((28 <=? n) && (n <=? 30))%nat
  || (n =? 133)%nat.

(** White space of [str.strip] / [str.lstrip] (below code point 256). *)
Definition is_space (c : ascii) : bool :=
  let n := code c in
  ((9 <=? n) && (n <=? 13))%nat || ((28 <=? n) && (n <=? 32))%nat
  || (n =? 133)%nat || (n =? 160)%nat.

Definition is_cr (c : ascii) : bool := (code c =? 13)%nat.
Definition is_lf (c : ascii) : bool := (code c =? 10)%nat.

(** [s.splitlines()] : "\r\n" counts as one boundary, a final boundary
    opens no further line. *)
Fixpoint splitlines (s : string) : list string :=
  match s with
  | EmptyString => []
  | String c s' =>
      if is_line_boundary c then
        match s' with
        | String c2 s'' =>
            if is_cr c && is_lf c2 then EmptyString :: splitlines s''
            else EmptyString :: splitlines s'
        | EmptyString => [EmptyString]
        end
      else
        match splitlines s' with
        | [] => [String c EmptyString]
        | l :: ls => String c l :: ls
        end
  end.

(** [sep.join(parts)] *)
Fixpoint join (sep : string) (parts : list string) : string :=
  match parts with
  | [] => EmptyString
  | [x] => x
  | x :: rest => x +:+ sep +:+ join sep rest
  end.

Fixpoint lstrip (s : string) : string :=
  match s with
  | EmptyString => EmptyString
  | String c s' => if is_space c then lstrip s' else s
  end.

Fixpoint rstrip (s : string) : string :=
  match s with
  | EmptyString => EmptyString
  | String c s' =>
      match rstrip s' with
      | EmptyString => if is_space c then EmptyString else String c EmptyString
      | r => String c r
      end
  end.

Definition strip (s : string) : string := rstrip (lstrip s).

Definition len (s : string) : Z := Z.of_nat (String.length s).

(** [s[:n]] for [0 <= n]. *)
Fixpoint take_str (n : nat) (s : string) : string :=
  match n, s with
  | S n', String c s' => String c (take_str n' s')
  | _, _ => EmptyString
  end.

(** [line[:len(line) - len(line.lstrip())]] : the leading white space. *)
Definition indent_of (line : string) : string :=
  take_str (Z.to_nat (len line - len (lstrip line))) line.

Definition startswith_char (c : ascii) (s : string) : bool :=
  match s with
  | String c' _ => Ascii.eqb c c'
  | EmptyString => false
  end.

Fixpoint endswith_char (c : ascii) (s : string) : bool :=
  match s with
  | EmptyString => false
  | String c' EmptyString => Ascii.eqb c c'
  | String _ s' => endswith_char c s'
  end.

Fixpoint is_prefix (p s : string) : bool :=
  match p, s with
  | EmptyString, _ => true
  | String a p', String b s' => Ascii.eqb a b && is_prefix p' s'
  | String _ _, EmptyString => false
  end.

(** [needle in hay] *)
Fixpoint contains (needle hay : string) : bool :=
  is_prefix needle hay ||
  match hay with
  | EmptyString => false
  | String _ hay' => contains needle hay'
  end.

(** [s.lower()] on ASCII letters. *)
Definition lower_char (c : ascii) : ascii :=
  let n := code c in
  if ((65 <=? n) && (n <=? 90))%nat then ascii_of_nat (n + 32) else c.

Fixpoint lower (s : string) : string :=
  match s with
  | EmptyString => EmptyString
  | String c s' => String (lower_char c) (lower s')
  end.

(** The texts that [splitlines] and [join] take back to themselves: every
    line boundary is a line feed and is followed by a further character. *)
Fixpoint plain_lines (s : string) : bool :=
  match s with
  | EmptyString => true
  | String c s' =>
      if is_line_boundary c then
        is_lf c && match s' with EmptyString => false | _ => plain_lines s' end
      else plain_lines s'
  end.

Fixpoint repeat_str (n : nat) (c : ascii) : string :=
  match n with
  | O => EmptyString
  | S n' => String c (repeat_str n' c)
  end.

End PyStr.

Import PyStr.

(** ** Python list indexing: [l[idx]] raises IndexError out of range *)
Module PyList.

Definition norm_index (n idx : Z) : option nat :=
  if decide (0 <= idx < n) then Some (Z.to_nat idx)
  else if decide (- n <= idx < 0) then Some (Z.to_nat (idx + n))
  else None.

Definition getitem {A} (l : list A) (idx : Z) : option A :=
  i ← norm_index (Z.of_nat (length l)) idx; l !! i.

Definition setitem {A} (l : list A) (idx : Z) (v : A) : option (list A) :=
  i ← norm_index (Z.of_nat (length l)) idx; Some (<[i:=v]> l).

(** A [for] loop whose body may raise. *)
Fixpoint foldM {A B} (f : B → A → option B) (b : B) (l : list A) : option B :=
  match l with
  | [] => Some b
  | a :: l' => b' ← f b a; foldM f b' l'
  end.

(** [range(a, b)] *)
Definition py_range (a b : Z) : list Z := seqZ a (b - a).

End PyList.

Import PyList.

(** A collapsible range, the dict [{"start": s, "end": e}] of the sources. *)
Record Range := mkRange { start : Z; end_ : Z }.

(** ** [ContextBuilder] (dual_layer_conetxt.py) *)
Module ContextBuilder.

Definition placeholder (indent : string) : string :=
  indent +:+ "# ... (irrelevant code hidden)".

(** Lines 63-65: the body of the inner loop. *)
Definition mark (nlines : Z) (is_suppressible : list bool) (i : Z)
  : option (list bool) :=
  let idx := i - 1 in
  if decide (0 <= idx < nlines) then setitem is_suppressible idx true
  else Some is_suppressible.

(** Lines 57-65: the body of the loop over [ranges_to_hide]. *)
Definition mark_range (nlines : Z) (is_suppressible : list bool) (rng : Range)
  : option (list bool) :=
  if decide (end_ rng > start rng)
  then foldM (mark nlines) is_suppressible (py_range (start rng + 1) (end_ rng))
  else Some is_suppressible.

(** Lines 55-65. *)
Definition suppressible_flags (lines : list string) (ranges_to_hide : list Range)
  : option (list bool) :=
  foldM (mark_range (Z.of_nat (length lines)))
        (replicate (length lines) false) ranges_to_hide.

(** Lines 70-79: the decision taken for the line of index [i]. *)
Definition should_keep (is_suppressible : list bool) (slice_lines : gset Z)
    (i : nat) : option bool :=
  let line_num := Z.of_nat i + 1 in
  sup ← getitem is_suppressible (Z.of_nat i);
  Some (if sup : bool then bool_decide (line_num ∈ slice_lines) else true).

(** Lines 69-88: the walk over [enumerate(lines)]; the result is the list
    of the lines appended to [stitched_lines] from index [i] on. *)
Fixpoint walk (is_suppressible : list bool) (slice_lines : gset Z)
    (i : nat) (rest : list string) (last_was_gap : bool)
  : option (list string) :=
  match rest with
  | [] => Some []
  | line_content :: rest' =>
      k ← should_keep is_suppressible slice_lines i;
      if k : bool then
        out ← walk is_suppressible slice_lines (S i) rest' false;
        Some (line_content :: out)
      else if last_was_gap then
        walk is_suppressible slice_lines (S i) rest' true
      else
        out ← walk is_suppressible slice_lines (S i) rest' true;
        Some (placeholder (indent_of line_content) :: out)
  end.

(** The same walk for a decision [keep_line] that cannot fail. *)
Fixpoint render (keep_line : nat → bool) (i : nat) (rest : list string)
    (last_was_gap : bool) : list string :=
  match rest with
  | [] => []
  | line_content :: rest' =>
      if keep_line i then line_content :: render keep_line (S i) rest' false
      else if last_was_gap then render keep_line (S i) rest' true
      else placeholder (indent_of line_content)
             :: render keep_line (S i) rest' true
  end.

Definition stitch_lines (source_code : string) (slice_lines : gset Z)
    (ranges_to_hide : list Range) : option (list string) :=
  let lines := splitlines source_code in
  is_suppressible ← suppressible_flags lines ranges_to_hide;
  walk is_suppressible slice_lines 0 lines false.

(** [_stitch_code]; [None] stands for an IndexError. *)
Definition _stitch_code (source_code : string) (slice_lines : gset Z)
    (ranges_to_hide : list Range) : option string :=
  stitched_lines ← stitch_lines source_code slice_lines ranges_to_hide;
  Some (join LF stitched_lines).

(** Lines 39-40 of [build_mixed_context]: the must-keep set. *)
Definition slice_lines_set (ddg_lines cdg_lines : gset Z) (buggy_line_no : Z)
  : gset Z :=
  (ddg_lines ∪ cdg_lines) ∪ {[ buggy_line_no ]}.

(** The words of the specification: line [ln] is suppressible when it lies
    strictly inside a range with [end > start], and hidden when it is
    moreover not a must-keep line. *)
Definition inside (rng : Range) (ln : Z) : Prop :=
  end_ rng > start rng ∧ start rng < ln ∧ ln < end_ rng.

Definition suppressible (ranges : list Range) (ln : Z) : Prop :=
  Exists (λ rng, inside rng ln) ranges.

Definition hidden (ranges : list Range) (keep : gset Z) (ln : Z) : Prop :=
  suppressible ranges ln ∧ ln ∉ keep.

#[global] Instance inside_dec rng ln : Decision (inside rng ln).
Proof. unfold inside. apply _. Defined.

#[global] Instance suppressible_dec ranges ln : Decision (suppressible ranges ln).
Proof. unfold suppressible. apply _. Defined.

#[global] Instance hidden_dec ranges keep ln : Decision (hidden ranges keep ln).
Proof. unfold hidden. apply _. Defined.

(** The decision for the line of index [i], in the words of the
    specification. *)
Definition kept (ranges : list Range) (keep : gset Z) (i : nat) : bool :=
  negb (bool_decide (hidden ranges keep (Z.of_nat i + 1))).

End ContextBuilder.

(** ** [PeripheralContextExtractor] (PCSC.py) *)
Module PeripheralContextExtractor.

Definition placeholder (indent : string) : string :=
  indent +:+ "# ... existing code ...".

(** Lines 83-93: the body of the first loop.  The state is the pair of
    [lines_to_suppress] and [placeholder_insertion_points] (the latter is
    written here and read nowhere). *)
Definition scan_range (st : gset Z * gmap Z bool) (rng : Range)
  : gset Z * gmap Z bool :=
  if decide (end_ rng > start rng) then
    (foldl (λ acc i, {[ i - 1 ]} ∪ acc) st.1
           (py_range (start rng + 1) (end_ rng)),
     if decide (start rng + 1 < end_ rng) then <[start rng := true]> st.2
     else st.2)
  else st.

Definition scan_ranges (ranges_to_hide : list Range) : gset Z * gmap Z bool :=
  foldl scan_range (∅, ∅) ranges_to_hide.

(** A range with [end > start] starts on the line of index [i]. *)
Definition opens (ranges_to_hide : list Range) (i : nat) : Prop :=
  Exists (λ rng, Z.of_nat i = start rng - 1 ∧ end_ rng > start rng)
         ranges_to_hide.

(** Lines 101-109: the first range that starts on line [i + 1] gives one
    placeholder, indented as [lines[i + 1]] when that line exists. *)
Fixpoint placeholder_after (lines : list string) (i : nat)
    (ranges_to_hide : list Range) : list string :=
  match ranges_to_hide with
  | [] => []
  | rng :: rest =>
      if decide (Z.of_nat i = start rng - 1 ∧ end_ rng > start rng) then
        let indent :=
          match lines !! S i with
          | Some next_line => indent_of next_line
          | None => EmptyString
          end in
        [placeholder indent]
      else placeholder_after lines i rest
  end.

(** Lines 96-109: the lines appended to [result_lines] from index [i] on. *)
Fixpoint walk (lines : list string) (ranges_to_hide : list Range)
    (lines_to_suppress : gset Z) (i : nat) (rest : list string)
  : list string :=
  match rest with
  | [] => []
  | line :: rest' =>
      if decide (Z.of_nat i ∈ lines_to_suppress) then
        walk lines ranges_to_hide lines_to_suppress (S i) rest'
      else
        line :: placeholder_after lines i ranges_to_hide
          ++ walk lines ranges_to_hide lines_to_suppress (S i) rest'
  end.

Definition skeleton_lines (source_code : string) (ranges_to_hide : list Range)
  : list string :=
  let lines := splitlines source_code in
  walk lines ranges_to_hide (scan_ranges ranges_to_hide).1 0 lines.

Definition _create_skeleton (source_code : string) (ranges_to_hide : list Range)
  : string :=
  match ranges_to_hide with
  | [] => source_code
  | _ => join LF (skeleton_lines source_code ranges_to_hide)
  end.

End PeripheralContextExtractor.

(** ** Exceptions and results *)
Inductive exn :=
| ValueError | TypeError | OverflowError | AttributeError | IndexError
| FileOperationError | LLMError | ConnectionError
| HTTPError (status_code : Z)
| RuntimeError (msg : string)
| KeyboardInterrupt.

(** [isinstance(e, Exception)]: an interrupt derives from BaseException only. *)
Definition is_Exception (e : exn) : bool :=
  match e with
  | KeyboardInterrupt => false
  | _ => true
  end.

Inductive result (A : Type) :=
| Ok (a : A)
| Raise (e : exn).
Arguments Ok {A} a.
Arguments Raise {A} e.

(** [try: body  except Exception: handler] *)
Definition try_except {A} (body : result A) (handler : exn → result A) : result A :=
  match body with
  | Ok a => Ok a
  | Raise e => if is_Exception e then handler e else Raise e
  end.

Definition bind_result {A B} (m : result A) (k : A → result B) : result B :=
  match m with
  | Ok a => k a
  | Raise e => Raise e
  end.

(** [BuggyArtifact] (core/artifact.py) *)
Record BuggyArtifact := {
  project_name : string;
  bug_id : string;
  file_path : string;
  method_name : string;
  buggy_line_no : Z;
  source_code : string;
  language : string
}.

(** ** JSON values, as [json.loads] returns them *)
#[local] Unset Elimination Schemes.
Inductive json :=
| JNull
| JBool (b : bool)
| JInt (n : Z)
| JFloat (value : QArith_base.Q)
| JStr (s : string)
| JList (items : list json)
| JDict (items : list (string * json)).
#[local] Set Elimination Schemes.

Module PyInt.

Definition digit_val (c : ascii) : option Z :=
  let n := code c in
  if ((48 <=? n) && (n <=? 57))%nat then Some (Z.of_nat (n - 48)) else None.

(** Decimal digits, single underscores allowed between digits. *)
Fixpoint digits_value (acc : Z) (prev_digit : bool) (s : string) : option Z :=
  match s with
  | EmptyString => if prev_digit then Some acc else None
  | String c s' =>
      match digit_val c with
      | Some d => digits_value (10 * acc + d) true s'
      | None =>
          if Ascii.eqb c "_"%char && prev_digit then digits_value acc false s'
          else None
      end
  end.

(** [int(s)] for a string [s]; [None] is ValueError. *)
Definition int_of_str (s : string) : option Z :=
  match strip s with
  | String c r =>
      if Ascii.eqb c "+"%char then digits_value 0 false r
      else if Ascii.eqb c "-"%char then Z.opp <$> digits_value 0 false r
      else digits_value 0 false (String c r)
  | EmptyString => None
  end.

(** [int(x)] for a decoded JSON value other than [None]. *)
Definition int (x : json) : result Z :=
  match x with
  | JInt n => Ok n
  | JBool b => Ok (if b then 1 else 0)
  | JFloat q => Ok (Z.quot (QArith_base.Qnum q) (Z.pos (QArith_base.Qden q)))
  | JStr s => match int_of_str s with Some n => Ok n | None => Raise ValueError end
  | JNull | JList _ | JDict _ => Raise TypeError
  end.

End PyInt.

(** A decoder for the fragment of JSON made of arrays, [null], [true],
    [false], integers and strings without escapes; it is used to run the
    slicer on concrete outputs, the theorems hold for any decoder. *)
Module JsonFragment.

Definition is_ws (c : ascii) : bool :=
  let n := code c in (n =? 32)%nat || (n =? 9)%nat || (n =? 10)%nat || (n =? 13)%nat.

Fixpoint skip_ws (s : string) : string :=
  match s with
  | String c s' => if is_ws c then skip_ws s' else s
  | EmptyString => EmptyString
  end.

Fixpoint drop_str (n : nat) (s : string) : string :=
  match n, s with
  | S n', String _ s' => drop_str n' s'
  | _, _ => s
  end.

Definition dquote : ascii := ascii_of_nat 34.

(** The characters up to the closing quote. *)
Fixpoint string_body (s : string) : option (string * string) :=
  match s with
  | EmptyString => None
  | String c s' =>
      if Ascii.eqb c dquote then Some (EmptyString, s')
      else if Ascii.eqb c "\"%char || (code c <? 32)%nat then None
      else '(body, rest) ← string_body s'; Some (String c body, rest)
  end.

Fixpoint digits (acc : Z) (s : string) : Z * string :=
  match s with
  | String c s' =>
      match PyInt.digit_val c with
      | Some d => digits (10 * acc + d) s'
      | None => (acc, s)
      end
  | EmptyString => (acc, s)
  end.

Definition is_digit (c : ascii) : bool := bool_decide (is_Some (PyInt.digit_val c)).

Definition ends_number (s : string) : bool :=
  match s with
  | String c _ => negb (Ascii.eqb c "."%char || Ascii.eqb c "e"%char
                        || Ascii.eqb c "E"%char || is_digit c)
  | EmptyString => true
  end.

(** ["0"] or a digit string without leading zero. *)
Definition natural (s : string) : option (Z * string) :=
  match s with
  | String c s' =>
      if Ascii.eqb c "0"%char then
        if ends_number s' then Some (0, s') else None
      else if is_digit c then
        let '(n, rest) := digits 0 s in
        if ends_number rest then Some (n, rest) else None
      else None
  | EmptyString => None
  end.

Fixpoint value (fuel : nat) (s : string) : option (json * string) :=
  match fuel with
  | O => None
  | S fuel' =>
      match skip_ws s with
      | EmptyString => None
      | String c rest as s1 =>
          if Ascii.eqb c "["%char then
            match skip_ws rest with
            | String c2 rest2 as s2 =>
                if Ascii.eqb c2 "]"%char then Some (JList [], rest2)
                else '(items, r) ← elements fuel' s2; Some (JList items, r)
            | EmptyString => None
            end
          else if Ascii.eqb c dquote then
            '(body, r) ← string_body rest; Some (JStr body, r)
          else if Ascii.eqb c "-"%char then
            '(n, r) ← natural rest; Some (JInt (- n), r)
          else if is_prefix "null" s1 then Some (JNull, drop_str 4 s1)
          else if is_prefix "true" s1 then Some (JBool true, drop_str 4 s1)
          else if is_prefix "false" s1 then Some (JBool false, drop_str 5 s1)
          else '(n, r) ← natural s1; Some (JInt n, r)
      end
  end
with elements (fuel : nat) (s : string) : option (list json * string) :=
  match fuel with
  | O => None
  | S fuel' =>
      '(v, r) ← value fuel' s;
      match skip_ws r with
      | String c r' =>
          if Ascii.eqb c ","%char then
            '(vs, r2) ← elements fuel' r'; Some (v :: vs, r2)
          else if Ascii.eqb c "]"%char then Some ([v], r')
          else None
      | EmptyString => None
      end
  end.

(** [None] is JSONDecodeError. *)
Definition loads (s : string) : option json :=
  '(v, rest) ← value (2 * String.length s + 2) s;
  match skip_ws rest with
  | EmptyString => Some v
  | _ => None
  end.

End JsonFragment.

(** ** [FocusedSlicer] (FDS.py) *)
Module FocusedSlicer.

(** Line 94: [{int(x) for x in data if x is not None}]. *)
Fixpoint line_set (data : list json) : result (gset Z) :=
  match data with
  | [] => Ok ∅
  | JNull :: rest => line_set rest
  | x :: rest =>
      bind_result (PyInt.int x) (λ n,
      bind_result (line_set rest) (λ s, Ok ({[ n ]} ∪ s)))
  end.

Definition bracketed (line : string) : bool :=
  startswith_char "["%char line && endswith_char "]"%char line.

(** Lines 87-96: the loop over [reversed(lines)]. *)
Fixpoint scan (json_loads : string → option json) (reversed_lines : list string)
  : result (gset Z) :=
  match reversed_lines with
  | [] => Ok ∅
  | line :: rest =>
      let line := strip line in
      if bracketed line then
        match json_loads line with
        | None => scan json_loads rest
        | Some (JList data) => line_set data
        | Some _ => scan json_loads rest
        end
      else scan json_loads rest
  end.




Definition _parse_joern_list_output (json_loads : string → option json)
    (raw_output : string) : result (gset Z) :=
  match raw_output with
  | EmptyString => Ok ∅
  | _ => scan json_loads (reverse (splitlines (strip raw_output)))
  end.

(** [query] is what [joern.execute_query_script] does: return the raw
    output or raise. *)
Definition _run_slicing_strategy (json_loads : string → option json)
    (query : result string) : result (gset Z) :=
  try_except
    (bind_result query (_parse_joern_list_output json_loads))
    (λ _, Ok ∅).

(** Lines 112-118. *)
Definition source_line (source_lines : list string) (line_no : Z) : list string :=
  let max_line_index := Z.of_nat (length source_lines) - 1 in
  let idx := line_no - 1 in
  if decide (0 <= idx <= max_line_index) then
    match source_lines !! Z.to_nat idx with
    | Some code_content => [code_content]
    | None => []
    end
  else [].

Definition sorted_lines (line_numbers : gset Z) : list Z :=
  merge_sort Z.le (elements line_numbers).

Definition _construct_code_block (source_lines : list string)
    (line_numbers : gset Z) : string :=
  if decide (line_numbers = ∅) then "(No dependencies found or slicing failed)"
  else join LF (concat (source_line source_lines <$> sorted_lines line_numbers)).

(** The two line sets that [generate_slices] hands to
    [_construct_code_block] (lines 39-56). *)
Definition slice_line_sets (json_loads : string → option json)
    (ddg_query cdg_query : result string) : result (gset Z * gset Z) :=
  bind_result (_run_slicing_strategy json_loads ddg_query) (λ ddg_lines,
  bind_result (_run_slicing_strategy json_loads cdg_query) (λ cdg_lines,
  Ok (ddg_lines, cdg_lines))).

Definition generate_slices (json_loads : string → option json)
    (cpg_path : string) (artifact : BuggyArtifact)
    (ddg_query cdg_query : result string) : result (string * string) :=
  match cpg_path with
  | EmptyString => Ok (EmptyString, EmptyString)
  | _ =>
      bind_result (slice_line_sets json_loads ddg_query cdg_query)
        (λ '(ddg_lines, cdg_lines),
      let source_code_lines := splitlines (source_code artifact) in
      Ok (_construct_code_block source_code_lines ddg_lines,
          _construct_code_block source_code_lines cdg_lines))
  end.

End FocusedSlicer.

(** [ContextBuilder.build_mixed_context]; [ast_query] is the structural
    query followed by [_parse_ranges]. *)
Definition build_mixed_context (json_loads : string → option json)
    (cpg_path : string) (artifact : BuggyArtifact)
    (ddg_query cdg_query : result string) (ast_query : result (list Range))
  : result string :=
  match cpg_path with
  | EmptyString => Ok (source_code artifact)
  | _ =>
      bind_result (FocusedSlicer.slice_line_sets json_loads ddg_query cdg_query)
        (λ '(ddg_lines, cdg_lines),
      let slice_lines_set :=
        ContextBuilder.slice_lines_set ddg_lines cdg_lines (buggy_line_no artifact) in
      bind_result ast_query (λ ranges_to_hide,
      match ContextBuilder._stitch_code (source_code artifact) slice_lines_set
              ranges_to_hide with
      | Some text => Ok text
      | None => Raise IndexError
      end))
  end.

(** ** [TokenManager] (LLM/token_manager.py) *)
Module TokenManager.

(** The tiktoken encoder: an external collaborator. *)
Record Encoder := {
  token : Type;
  encode : string → list token;
  decode : list token → string
}.

Definition MODEL_LIMITS : list (string * Z) :=
  [ ("gpt-3.5-turbo", 10000); ("gemini-2.0-flash", 10000);
    ("deepseek-chat", 12000); ("qwen2.5-coder:7b", 12000);
    ("qwen2.5-coder:32b", 12000); ("llama3:8b", 8000) ].

Definition OUTPUT_RESERVE : Z := 1024.

Fixpoint first_limit (items : list (string * Z)) (name : string) : Z :=
  match items with
  | [] => 4096
  | (key, limit) :: rest =>
      if contains key name then limit else first_limit rest name
  end.

Definition _get_model_limit (model_name : string) : Z :=
  first_limit MODEL_LIMITS (lower model_name).

Record t := {
  model_name : string;
  max_context_length : Z;
  encoder : Encoder
}.

(** [__init__]; [enc] is the encoder tiktoken returns for the model. *)
Definition init (enc : Encoder) (name : string) : t :=
  {| model_name := name;
     max_context_length := _get_model_limit name;
     encoder := enc |}.

Definition count_tokens (self : t) (text : string) : Z :=
  match text with
  | EmptyString => 0
  | _ => Z.of_nat (length (encode (encoder self) text))
  end.

Definition safe_limit (self : t) : Z := max_context_length self - OUTPUT_RESERVE.

Definition check_fit (self : t) (full_prompt : string) : bool :=
  negb (bool_decide (count_tokens self full_prompt > safe_limit self)).

Definition _truncate_text (self : t) (text : string) (max_tokens : Z)
    (from_end : bool) : string :=
  if decide (max_tokens <= 0) then EmptyString
  else
    let tokens := encode (encoder self) text in
    if decide (Z.of_nat (length tokens) <= max_tokens) then text
    else
      let truncated_tokens :=
        if from_end
        then drop (length tokens - Z.to_nat max_tokens) tokens
        else take (Z.to_nat max_tokens) tokens in
      decode (encoder self) truncated_tokens.

Definition notice : string := LF +:+ "... (Context truncated due to length) ...".

(** Lines 84-92. *)
Definition fit_context (self : t) (dynamic_context : string)
    (available_for_context : Z) : string :=
  let current_context_tokens := count_tokens self dynamic_context in
  if decide (current_context_tokens > available_for_context) then
    _truncate_text self dynamic_context available_for_context false +:+ notice
  else dynamic_context.

(** Line 70. *)
Definition available_for_context (self : t) (static_parts : list string)
    (feedback_part : string) : Z :=
  safe_limit self - count_tokens self (join LF static_parts)
  - count_tokens self feedback_part.

Definition optimize_prompt (self : t) (static_parts : list string)
    (dynamic_context : string) (feedback_part : string) : string :=
  let static_text := join LF static_parts in
  let feedback_tokens := count_tokens self feedback_part in
  let static_tokens := count_tokens self static_text in
  let safe_limit := safe_limit self in
  let available := safe_limit - static_tokens - feedback_tokens in
  if decide (available < 0) then
    let feedback_budget := Z.max 0 (safe_limit - static_tokens) in
    let feedback_part := _truncate_text self feedback_part feedback_budget true in
    let feedback_tokens := count_tokens self feedback_part in
    let available := safe_limit - static_tokens - feedback_tokens in
    if decide (available < 0) then static_text
    else fit_context self dynamic_context available
  else fit_context self dynamic_context available.

(** A tokenizer with one token per character, to run the allocator. *)
Fixpoint chars (s : string) : list ascii :=
  match s with
  | EmptyString => []
  | String c s' => c :: chars s'
  end.

Fixpoint of_chars (l : list ascii) : string :=
  match l with
  | [] => EmptyString
  | c :: l' => String c (of_chars l')
  end.

Definition char_encoder : Encoder :=
  {| token := ascii; encode := chars; decode := of_chars |}.

End TokenManager.

(** ** [retry_with_backoff] (LLM/client.py) *)
Module Retry.

(** What the wrapper did: its outcome, the number of calls of the wrapped
    function and the sleeps, oldest first. *)
Record Run (A : Type) := mkRun {
  outcome : result A;
  calls : nat;
  sleeps : list QArith_base.Q
}.
Arguments mkRun {A}.
Arguments outcome {A}.
Arguments calls {A}.
Arguments sleeps {A}.

(** [except (requests.exceptions.RequestException, LLMError)]. *)
Definition caught (e : exn) : bool :=
  match e with
  | HTTPError _ | ConnectionError | LLMError => true
  | _ => false
  end.

(** Line 30. *)
Definition non_retriable (status : Z) : bool :=
  bool_decide (400 <= status < 500 ∧ status ≠ 429).

Definition delay : QArith_base.Q := QArith_base.Qmake 1 1.

(** A caught error that is retried: anything but a client error other
    than 429. *)
Definition retried (e : exn) : Prop :=
  caught e = true ∧ ∀ status, e = HTTPError status → non_retriable status = false.

(** Line 36: [delay * (backoff_factor ** (retry_count - 1))]. *)
Definition sleep_time (backoff_factor : QArith_base.Q) (retry_count : Z)
  : QArith_base.Q :=
  QArith_base.Qmult delay (QArith_base.Qpower backoff_factor (retry_count - 1)).

(** The [while] loop with [remaining = max_retries - retry_count]
    iterations left; [func k] is the outcome of the call number [k]. *)
Fixpoint loop {A} (func : nat → result A) (backoff_factor : QArith_base.Q)
    (remaining : nat) (retry_count : Z) (last_exception : option exn)
    (ncalls : nat) (slept : list QArith_base.Q) : Run A :=
  match remaining with
  | O =>
      (* [raise last_exception]; raising [None] is a TypeError *)
      mkRun (Raise (default TypeError last_exception)) ncalls slept
  | S remaining' =>
      match func ncalls with
      | Ok v => mkRun (Ok v) (S ncalls) slept
      | Raise e =>
          if caught e then
            let no_retry :=
              match e with
              | HTTPError status => non_retriable status
              | _ => false
              end in
            if no_retry then mkRun (Raise e) (S ncalls) slept
            else
              let retry_count := retry_count + 1 in
              loop func backoff_factor remaining' retry_count (Some e)
                   (S ncalls)
                   (slept ++ [sleep_time backoff_factor retry_count])
          else mkRun (Raise e) (S ncalls) slept
      end
  end.

Definition wrapper {A} (max_retries : Z) (backoff_factor : QArith_base.Q)
    (func : nat → result A) : Run A :=
  loop func backoff_factor (Z.to_nat max_retries) 0 None 0%nat [].

End Retry.

(** ** [FileManager] (execution/file_manager.py) *)
Module FileManager.

(** The target file and its [.bak] sibling; [None] when absent. *)
Record Files := mkFiles {
  target : option string;
  backup : option string
}.

Definition backup_file (fs : Files) : bool * Files :=
  match target fs with
  | None => (false, fs)
  | Some content =>
      match backup fs with
      | Some _ => (true, fs)
      | None => (true, mkFiles (target fs) (Some content))
      end
  end.

Definition restore_file (fs : Files) : bool * Files :=
  match backup fs with
  | None => (false, fs)
  | Some saved => (true, mkFiles (Some saved) (backup fs))
  end.

(** [write_patch] with [create_backup=True]; [io_error] says that opening
    the file for writing fails. *)
Definition write_patch (fs : Files) (new_content : string) (io_error : bool)
  : result unit * Files :=
  let fs := (backup_file fs).2 in
  if io_error then (Raise FileOperationError, fs)
  else (Ok tt, mkFiles (Some new_content) (backup fs)).

End FileManager.

(** ** [GopherWorkflow] (workflow.py) *)
Module GopherWorkflow.
Import FileManager.

(** core/patch.py *)
Record TestResult := mkTestResult {
  passed : bool;
  error_message : option string;
  failed_test_name : option string
}.

Inductive PatchStatus :=
| GENERATED | COMPILATION_FAILED | TEST_FAILED | PLAUSIBLE | TIMEOUT.

(** What the collaborators of one round do.  [_get_round_name] and
    [_record_patch] are called by [run_repair] and defined nowhere in the
    class: each call returns or raises.  [run_tests] catches Exception
    itself, so that it raises on an interrupt only.  The IOError text of
    a failed write is left out of the message. *)
Record Round := mkRound {
  round_name : result unit;
  completion : result string;
  write_io_error : bool;
  tests : result TestResult;
  record_patch : result unit
}.

(** Lines 156-157: the body is [pass]. *)
Definition _extract_code_block (text : string) : option string := None.

Record State := mkState {
  files : Files;
  last_test_result : option TestResult;
  composed : list (nat * option TestResult);
  statuses : list (nat * PatchStatus)
}.

Inductive Step :=
| Continue
| Return (b : bool)
| Unhandled (e : exn).

Definition no_code_block : TestResult :=
  mkTestResult false (Some "LLM did not return a valid code block.") None.

Definition write_error : TestResult :=
  mkTestResult false (Some "File write error: Patch write failed") None.

(** [if not code_block]: [None] and the empty string are both falsy. *)
Definition falsy (code_block : option string) : bool :=
  match code_block with
  | None | Some EmptyString => true
  | Some _ => false
  end.

(** Lines 93-150: one iteration of the loop over rounds. *)
Definition round (extract : string → option string) (rd : Round)
    (round_num : nat) (st : State) : Step * State :=
  match round_name rd with
  | Raise e => (Unhandled e, st)
  | Ok _ =>
    let st := mkState (files st) (last_test_result st)
                (composed st ++ [(round_num, last_test_result st)])
                (statuses st) in
    match completion rd with
    | Raise e => if is_Exception e then (Continue, st) else (Unhandled e, st)
    | Ok raw_response =>
      let code_block := extract raw_response in
      if falsy code_block then
        (Continue, mkState (files st) (Some no_code_block) (composed st) (statuses st))
      else
        let cleaned_code := default EmptyString code_block in
        match write_patch (files st) cleaned_code (write_io_error rd) with
        | (Raise _, fs) =>
            let st := mkState fs (Some write_error) (composed st)
                        (statuses st ++ [(round_num, COMPILATION_FAILED)]) in
            match record_patch rd with
            | Raise e => (Unhandled e, st)
            | Ok _ => (Continue, st)
            end
        | (Ok _, fs) =>
            let st := mkState fs (last_test_result st) (composed st) (statuses st) in
            match tests rd with
            | Raise e => (Unhandled e, st)
            | Ok res =>
              let st := mkState (files st) (Some res) (composed st) (statuses st) in
              if passed res then
                let st := mkState (files st) (last_test_result st) (composed st)
                            (statuses st ++ [(round_num, PLAUSIBLE)]) in
                match record_patch rd with
                | Raise e => (Unhandled e, st)
                | Ok _ =>
                    (Return true,
                     mkState (restore_file (files st)).2 (last_test_result st)
                             (composed st) (statuses st))
                end
              else
                match error_message res with
                | None => (Unhandled TypeError, st)   (* [None[:100]] *)
                | Some _ =>
                  let st := mkState (files st) (last_test_result st) (composed st)
                              (statuses st ++ [(round_num, TEST_FAILED)]) in
                  match record_patch rd with
                  | Raise e => (Unhandled e, st)
                  | Ok _ =>
                      (Continue,
                       mkState (restore_file (files st)).2 (last_test_result st)
                               (composed st) (statuses st))
                  end
                end
            end
        end
    end
  end.

Inductive Exit :=
| Returned (b : bool)
| Raised (e : exn).

(** Lines 92-154: [n] rounds are left, the next one is [round_num]; after
    the last one comes the final cleanup. *)
Fixpoint rounds (extract : string → option string) (env : nat → Round)
    (n : nat) (round_num : nat) (st : State) : Exit * State :=
  match n with
  | O =>
      (Returned false,
       mkState (restore_file (files st)).2 (last_test_result st)
               (composed st) (statuses st))
  | S n' =>
      match round extract (env round_num) round_num st with
      | (Continue, st') => rounds extract env n' (S round_num) st'
      | (Return b, st') => (Returned b, st')
      | (Unhandled e, st') => (Raised e, st')
      end
  end.

(** [run_repair] from the backup of line 54 on; the analysis phase
    (lines 56-80) does not touch the file. *)
Definition run_repair (extract : string → option string) (env : nat → Round)
    (max_rounds : Z) (fs : Files) : Exit * State :=
  rounds extract env (Z.to_nat max_rounds) 1%nat
         (mkState (backup_file fs).2 None [] []).

(** [PromptComposer.construct_prompt], lines 79-89: the feedback template
    and its variables. *)
Inductive Feedback :=
| Initial
| Failure (error_message failed_test_name : option string).

Definition feedback_of (test_result : option TestResult) : Feedback :=
  match test_result with
  | Some r =>
      if passed r then Initial
      else Failure (error_message r) (failed_test_name r)
  | None => Initial
  end.

End GopherWorkflow.

(** ** Concrete inputs *)
Module Examples.
Import FileManager GopherWorkflow.

Definition indented : string := join LF ["a"; "    b"; "    c"; "d"].
Definition dedented : string := join LF ["a"; "    b"; "c"].
Definition nested : string := join LF ["a"; "  b"; "    c"; "d"].

(** A model without an entry in [MODEL_LIMITS]: window 4096, safe limit
    3072. *)
Definition small_window : TokenManager.t :=
  TokenManager.init TokenManager.char_encoder "gpt-4".

Definition three_lines : BuggyArtifact :=
  {| project_name := "Lang"; bug_id := "1"; file_path := "src/A.java";
     method_name := "f"; buggy_line_no := 2;
     source_code := join LF ["a"; "b"; "c"]; language := "java" |}.

Definition always_404 (k : nat) : result string := Raise (HTTPError 404).




Definition fenced : string :=
  join LF ["Here is the fix:"; "```java"; "int x = 1;"; "```"].

Definition passing : TestResult := mkTestResult true None None.

Definition helpers_defined : Round :=
  mkRound (Ok tt) (Ok fenced) false (Ok passing) (Ok tt).
Definition interrupted : Round :=
  mkRound (Ok tt) (Ok fenced) false (Raise KeyboardInterrupt) (Ok tt).
Definition record_undefined : Round :=
  mkRound (Ok tt) (Ok fenced) false (Ok passing) (Raise AttributeError).
Definition as_written : Round :=
  mkRound (Raise AttributeError) (Ok fenced) false (Ok passing)
          (Raise AttributeError).

Definition fresh : Files := mkFiles (Some "orig") None.
Definition stale : Files := mkFiles (Some "v2") (Some "v1").

End Examples.

(** ** [PeripheralContextExtractor._parse_ranges] and [generate_context]
    (PCSC.py) *)
Module PeripheryQuery.

(** Truth value of a decoded JSON value. *)
Definition truthy (x : json) : bool :=
  match x with
  | JNull => false
  | JBool b => b
  | JInt n => negb (n =? 0)
  | JFloat q => negb (QArith_base.Qnum q =? 0)
  | JStr EmptyString => false
  | JStr _ => true
  | JList [] => false
  | JList _ => true
  | JDict [] => false
  | JDict _ => true
  end.

(** [a or b] *)
Definition py_or (a b : json) : json := if truthy a then a else b.

(** [item.get(key)] on the items of a dict: [None] for a missing key. *)
Fixpoint dict_get (items : list (string * json)) (key : string) : json :=
  match items with
  | [] => JNull
  | (k, v) :: rest => if String.eqb k key then v else dict_get rest key
  end.

(** Lines 61-65: the loop over the items of the decoded list; an item
    without a [get] method raises AttributeError. *)
Fixpoint collect (data : list json) (ranges : list Range) : result (list Range) :=
  match data with
  | [] => Ok ranges
  | JDict items :: rest =>
      let start := py_or (dict_get items "startLine") (dict_get items "start") in
      let end_ := py_or (dict_get items "endLine") (dict_get items "end") in
      if truthy start && truthy end_ then
        bind_result (PyInt.int start) (λ s,
        bind_result (PyInt.int end_) (λ e,
        collect rest (ranges ++ [mkRange s e])))
      else collect rest ranges
  | _ :: _ => Raise AttributeError
  end.

(** Lines 55-68: the loop over [reversed(lines)]. *)
Fixpoint scan (json_loads : string → option json) (reversed_lines : list string)
  : result (list Range) :=
  match reversed_lines with
  | [] => Ok []
  | line :: rest =>
      let line := strip line in
      if FocusedSlicer.bracketed line then
        match json_loads line with
        | None => scan json_loads rest
        | Some (JList data) => collect data []
        | Some _ => scan json_loads rest
        end
      else scan json_loads rest
  end.

Definition _parse_ranges (json_loads : string → option json)
    (raw_output : string) : result (list Range) :=
  match raw_output with
  | EmptyString => Ok []
  | _ => scan json_loads (reverse (splitlines (strip raw_output)))
  end.

(** [generate_context]; [query] is what [joern.execute_query_script] does. *)
Definition generate_context (json_loads : string → option json)
    (cpg_path : string) (artifact : BuggyArtifact) (query : result string)
  : result string :=
  match cpg_path with
  | EmptyString => Ok EmptyString
  | _ =>
      match bind_result query (_parse_ranges json_loads) with
      | Ok ranges_to_hide =>
          Ok (PeripheralContextExtractor._create_skeleton
                (source_code artifact) ranges_to_hide)
      | Raise e =>
          if is_Exception e then Ok (source_code artifact) else Raise e
      end
  end.

(** An item of the expected format, with integer line numbers. *)
Definition range_item (start_line end_line : Z) : json :=
  JDict [("startLine", JInt start_line); ("endLine", JInt end_line)].

End PeripheryQuery.

(** ** [RepairSession] and [DualLayerContext] (core/artifact.py) *)
Module Session.

Record DualLayerContext := mkContext {
  data_dependency_slice : string;
  control_dependency_slice : string;
  peripheral_context : string
}.

Definition nonempty (s : string) : bool :=
  match s with
  | EmptyString => false
  | _ => true
  end.

Definition is_empty (self : DualLayerContext) : bool :=
  negb (nonempty (data_dependency_slice self) || nonempty (peripheral_context self)).


End Session.

(** ** [PromptComposer] (prompting/composer.py) *)
Module PromptComposer.
Import Session GopherWorkflow.

(** The loaded templates with their jinja rendering: one function per
    template, of the variables that [construct_prompt] passes. *)
Record Templates := {
  system_message : string;
  user_instruction : string;
  buggy_artifact : string → string → string → string → Z → string;
  context_none : string;
  context_slice : string → string → string → string;
  context_periphery : string → string → string;
  feedback_failure : option string → option string → string;
  feedback_initial : string → string;
  trailing : string → string
}.


(** [s or "(None)"] *)
Definition or_none (s : string) : string :=
  match s with
  | EmptyString => "(None)"
  | _ => s
  end.

(** Lines 51-75. *)
Definition context_text (tpl : Templates) (artifact : BuggyArtifact)
    (context : DualLayerContext) (round_num : Z) : string :=
  if decide (round_num = 1) then context_none tpl
  else if decide (round_num = 2) then
    context_slice tpl (language artifact)
      (or_none (data_dependency_slice context))
      (or_none (control_dependency_slice context))
  else if decide (round_num = 3) then
    context_periphery tpl (language artifact)
      (or_none (peripheral_context context))
  else context_none tpl.

Definition issue_description : string :=
  "The code fails the provided test suite. Please analyze dependencies and fix it.".

(** Lines 77-91. *)
Definition feedback_text (tpl : Templates) (test_result : option TestResult)
  : string :=
  match feedback_of test_result with
  | Failure msg name => feedback_failure tpl msg name
  | Initial => feedback_initial tpl issue_description
  end.

Definition separator : string :=
  "--------------------------------------------------".

Definition LFLF : string := LF +:+ LF.

(** Lines 110-116 and 120-126: the prompt around a context section. *)
Definition assemble (leading_text buggy_code_text context_section feedback
    trailing_text : string) : string :=
  leading_text +:+ LFLF +:+ buggy_code_text +:+ LFLF +:+ context_section
  +:+ LFLF +:+ feedback +:+ LFLF +:+ trailing_text.

Definition removed : string := "(Context removed due to extreme length)".

Definition construct_prompt (tm : TokenManager.t) (tpl : Templates)
    (artifact : BuggyArtifact) (context : DualLayerContext)
    (round_num : Z) (test_result : option TestResult) : string :=
  let leading_text :=
    system_message tpl +:+ LFLF +:+ user_instruction tpl in
  let buggy_code_text :=
    buggy_artifact tpl (file_path artifact) (method_name artifact)
      (language artifact) (source_code artifact) (buggy_line_no artifact) in
  let context_text := context_text tpl artifact context round_num in
  let feedback_text := feedback_text tpl test_result in
  let trailing_text := trailing tpl (language artifact) in
  let static_parts :=
    [leading_text; separator; buggy_code_text; separator; trailing_text] in
  let optimized_context :=
    TokenManager.optimize_prompt tm static_parts context_text feedback_text in
  let full_prompt :=
    assemble leading_text buggy_code_text optimized_context feedback_text
             trailing_text in
  if TokenManager.check_fit tm full_prompt then full_prompt
  else assemble leading_text buggy_code_text removed feedback_text trailing_text.

End PromptComposer.

(** ** [TestRunner] (execution/test_runner.py) *)
Module TestRunner.
Import GopherWorkflow.

Definition d4j_projects : list string :=
  ["Chart"; "Cli"; "Closure"; "Codec"; "Collections"; "Compress";
   "Csv"; "Gson"; "JacksonCore"; "JacksonDatabind"; "JacksonXml";
   "Jsoup"; "JxPath"; "Lang"; "Math"; "Mockito"; "Time"].

(** What [exec_command] returns; it catches every Exception itself. *)
Record Exec := mkExec {
  exit_code : Z;
  stdout : string;
  stderr : string
}.

(** The regular expressions of the parsers, as the [re] module applies
    them: the number after "Failing tests: ", the bullet lines, and the
    class and method of the first "FAILED" line. *)
Record Regex := {
  search_failing : string → option Z;
  findall_bullets : string → list string;
  search_failed_test : string → option (string * string)
}.

(** [s[-n:]] *)
Definition take_last (n : nat) (s : string) : string :=
  JsonFragment.drop_str (String.length s - n) s.

Definition is_error_line (line : string) : bool :=
  contains "error:" line || contains "Error:" line.

Definition _clean_compile_error (output : string) : string :=
  match filter (λ line, is_error_line line = true) (splitlines output) with
  | [] => take_last 500 output
  | lines => join LF (take 5 lines)
  end.

Definition _parse_defects4j_output (re : Regex) (stdout stderr : string)
  : TestResult :=
  if contains "Failing tests: 0" stdout then mkTestResult true None None
  else
    match search_failing re stdout with
    | Some count =>
        let first_test := default "UnknownTest" (head (findall_bullets re stdout)) in
        let error_msg :=
          "Defects4J reported " +:+ pretty count +:+ " failures." in
        let error_msg :=
          match stderr with
          | EmptyString => error_msg
          | _ => error_msg +:+ LF +:+ "Output:" +:+ LF +:+ take_str 1000 stderr
          end in
        mkTestResult false (Some error_msg) (Some first_test)
    | None =>
        mkTestResult false
          (Some ("Defects4J execution failed unexpectedly:" +:+ LF +:+ stderr
                 +:+ LF +:+ take_str 500 stdout))
          (Some "ExecutionError")
    end.

Definition _run_defects4j (re : Regex) (compile test : Exec) : TestResult :=
  if decide (exit_code compile ≠ 0) then
    mkTestResult false
      (Some (_clean_compile_error (stderr compile +:+ stdout compile)))
      (Some "Compilation")
  else _parse_defects4j_output re (stdout test) (stderr test).

(** Lines 155-163 of [_parse_gradle_output]: the loop over the lines with
    its state [capture] and [error_lines]; the result is [error_lines] at
    the [break] or at the end of the lines. *)
Fixpoint capture_errors (failed_test : string) (lines : list string)
    (capture : bool) (error_lines : list string) : list string :=
  match lines with
  | [] => error_lines
  | line :: rest =>
      let capture :=
        capture || (contains "FAILED" line && contains failed_test line) in
      if capture then
        let error_lines :=
          if contains "Exception" line || contains "Error" line
             || contains "at " line
          then error_lines ++ [strip line] else error_lines in
        if (5 <? length error_lines)%nat then error_lines
        else capture_errors failed_test rest capture error_lines
      else capture_errors failed_test rest capture error_lines
  end.

Definition _parse_gradle_output (re : Regex) (stdout stderr : string)
  : TestResult :=
  let failed_test :=
    match search_failed_test re stdout with
    | Some (cls, method) => cls +:+ "::" +:+ method
    | None => "UnknownTest"
    end in
  let error_lines := capture_errors failed_test (splitlines stdout) false [] in
  let error_msg :=
    match error_lines with
    | [] => "Tests failed (check logs)"
    | _ => join LF error_lines
    end in
  mkTestResult false (Some error_msg) (Some failed_test).

Definition _run_gradle_test (re : Regex) (run : Exec) : TestResult :=
  if decide (exit_code run = 0) then mkTestResult true None None
  else _parse_gradle_output re (stdout run) (stderr run).

Definition _parse_python_traceback (output : string) : TestResult :=
  match splitlines (strip output) with
  | [] => mkTestResult false (Some "Empty error output") (Some "Unknown")
  | _ => mkTestResult false (Some (take_last 1000 output))
                      (Some "QuixBugs_Test_Case")
  end.

Definition _run_quixbugs (run : Exec) : TestResult :=
  if decide (exit_code run = 0) then mkTestResult true None None
  else _parse_python_traceback (stderr run +:+ stdout run).

(** The branch that [run_tests] takes (lines 61-70). *)
Inductive Runner := Defects4J | Gradle | QuixBugs.

Definition runner_of (project_name : string) : Runner :=
  if bool_decide (project_name ∈ d4j_projects) then Defects4J
  else if contains "minecraft" (lower project_name)
          || contains "fabric" (lower project_name) then Gradle
  else if contains "quixbugs" (lower project_name) then QuixBugs
  else Gradle.

(** [run_tests]; [compile], [test] and [run] are what the commands of the
    chosen runner return. *)
Definition run_tests (re : Regex) (artifact : BuggyArtifact)
    (compile test run : Exec) : TestResult :=
  match runner_of (project_name artifact) with
  | Defects4J => _run_defects4j re compile test
  | Gradle => _run_gradle_test re run
  | QuixBugs => _run_quixbugs run
  end.

End TestRunner.

(** The law that truncation relies on: decoding tokens and encoding the
    text again gives no more tokens. *)
Definition no_growth (enc : TokenManager.Encoder) : Prop :=
  ∀ tokens : list (TokenManager.token enc),
    (length (TokenManager.encode enc (TokenManager.decode enc tokens))
     ≤ length tokens)%nat.

(** ** The analysis phase of [run_repair] (workflow.py, lines 56-75) *)
Module Analysis.
Import Session.

(** [FocusedSlicer.generate_slices] with its branch for an artifact without
    a method name: the warning of line 38 reads [artifact.buggy_id], an
    attribute that [BuggyArtifact] does not have. *)
Definition generate_slices (json_loads : string → option json)
    (cpg_path : string) (artifact : BuggyArtifact)
    (ddg_query cdg_query : result string) : result (string * string) :=
  match cpg_path, method_name artifact with
  | EmptyString, _ => Ok (EmptyString, EmptyString)
  | _, EmptyString => Raise AttributeError
  | _, _ =>
      FocusedSlicer.generate_slices json_loads cpg_path artifact
        ddg_query cdg_query
  end.

Definition empty_context : DualLayerContext :=
  mkContext EmptyString EmptyString EmptyString.

(** [cpg] is what [joern.generate_cpg] does, the three queries what
    [joern.execute_query_script] does for the two slicing scripts and the
    skeleton script. *)
Definition analysis_phase (json_loads : string → option json)
    (artifact : BuggyArtifact) (cpg : result string)
    (ddg_query cdg_query skeleton_query : result string)
  : result DualLayerContext :=
  try_except
    (bind_result cpg (λ cpg_path,
     bind_result (generate_slices json_loads cpg_path artifact ddg_query cdg_query)
       (λ '(ddg_slice, cdg_slice),
     bind_result (PeripheryQuery.generate_context json_loads cpg_path artifact
                    skeleton_query) (λ periphery,
     Ok (mkContext ddg_slice cdg_slice periphery)))))
    (λ _, Ok empty_context).

End Analysis.

(** [BuggyArtifact.identifier] (core/artifact.py) *)
Definition identifier (artifact : BuggyArtifact) : string :=
  project_name artifact +:+ "-" +:+ bug_id artifact.

(** ** The loop over the artifacts in [main] (main_generator.py) *)
Module Main.
Import GopherWorkflow.

Record Results := mkResults {
  fixed : list string;
  failed : list string;
  errors : list string
}.

(** Lines 163-183; each artifact comes with what [workflow.run_repair]
    does on it.  An interrupt leaves the loop. *)
Fixpoint repair_all (runs : list (BuggyArtifact * Exit)) (results : Results)
  : Results :=
  match runs with
  | [] => results
  | (artifact, exit) :: rest =>
      match exit with
      | Returned true =>
          repair_all rest
            (mkResults (fixed results ++ [identifier artifact])
                       (failed results) (errors results))
      | Returned false =>
          repair_all rest
            (mkResults (fixed results)
                       (failed results ++ [identifier artifact]) (errors results))
      | Raised KeyboardInterrupt => results
      | Raised _ =>
          repair_all rest
            (mkResults (fixed results) (failed results)
                       (errors results ++ [identifier artifact]))
      end
  end.

(** How the loop counts a run. *)
Definition returned (b : bool) (run : BuggyArtifact * Exit) : bool :=
  match run.2 with
  | Returned b' => Bool.eqb b b'
  | Raised _ => false
  end.

Definition raised_exception (run : BuggyArtifact * Exit) : bool :=
  match run.2 with
  | Raised e => is_Exception e
  | Returned _ => false
  end.

Definition interrupts (run : BuggyArtifact * Exit) : bool :=
  match run.2 with
  | Raised e => negb (is_Exception e)
  | Returned _ => false
  end.

Definition identifiers (keep : BuggyArtifact * Exit → bool)
    (runs : list (BuggyArtifact * Exit)) : list string :=
  (λ run, identifier run.1) <$> filter (λ run, keep run = true) runs.

End Main.

(** ** [FileManager] with the failures of its copies and writes
    (execution/file_manager.py) *)
Module FileIO.
Import FileManager.

(** What [shutil.copy2] does: it copies, or it raises an IOError and leaves
    the destination in the state [remains] ([None]: no file). *)
Inductive CopyOutcome :=
| Copied
| CopyFailed (remains : option string).

(** What [open(file_path, 'w')] followed by [f.write] does: the content is
    written, or an IOError is raised with the file left in the state [remains]. *)
Inductive WriteOutcome :=
| Written
| WriteFailed (remains : option string).

(** Lines 30-49. *)
Definition backup_file (fs : Files) (copy : CopyOutcome) : result bool * Files :=
  match target fs with
  | None => (Ok false, fs)
  | Some content =>
      match backup fs with
      | Some _ => (Ok true, fs)
      | None =>
          match copy with
          | Copied => (Ok true, mkFiles (target fs) (Some content))
          | CopyFailed remains =>
              (Raise FileOperationError, mkFiles (target fs) remains)
          end
      end
  end.

(** Lines 51-66. *)
Definition restore_file (fs : Files) (copy : CopyOutcome) : result bool * Files :=
  match backup fs with
  | None => (Ok false, fs)
  | Some saved =>
      match copy with
      | Copied => (Ok true, mkFiles (Some saved) (backup fs))
      | CopyFailed remains => (Raise FileOperationError, mkFiles remains (backup fs))
      end
  end.

(** Lines 68-79: the backup is outside the [try], so that its error leaves
    [write_patch] before anything is written. *)
Definition write_patch (fs : Files) (new_content : string)
    (create_backup : bool) (copy : CopyOutcome) (write : WriteOutcome)
  : result unit * Files :=
  let backed_up :=
    if create_backup then backup_file fs copy else (Ok true, fs) in
  match backed_up with
  | (Raise e, fs) => (Raise e, fs)
  | (Ok _, fs) =>
      match write with
      | Written => (Ok tt, mkFiles (Some new_content) (backup fs))
      | WriteFailed remains => (Raise FileOperationError, mkFiles remains (backup fs))
      end
  end.

(** One call of [write_patch] with what its copy and its write do. *)
Record Call := mkCall {
  new_content : string;
  create_backup : bool;
  copy : CopyOutcome;
  write : WriteOutcome
}.

Definition after_call (fs : Files) (call : Call) : Files :=
  (write_patch fs (new_content call) (create_backup call) (copy call)
               (write call)).2.

Definition after_calls (fs : Files) (calls : list Call) : Files :=
  foldl after_call fs calls.

End FileIO.

(** ** More concrete inputs *)
Module Inputs.
Import Session PromptComposer TestRunner.

(** Templates that put their variables one after the other. *)
Definition plain_templates : Templates :=
  {| system_message := "system";
     user_instruction := "instruction";
     buggy_artifact := λ file_path method_name language body line,
       file_path +:+ " " +:+ method_name +:+ " " +:+ language +:+ LF +:+ body;
     context_none := "no context";
     context_slice := λ language ddg cdg, ddg +:+ LF +:+ cdg;
     context_periphery := λ language skeleton, skeleton;
     feedback_failure := λ msg name, default "None" msg +:+ LF +:+ default "None" name;
     feedback_initial := λ issue, issue;
     trailing := λ language, "answer in " +:+ language |}.

Definition sliced : DualLayerContext := mkContext "a" "b" "a b c".

(** A Gradle run in which the test [m] of the class [a.B] failed. *)
Definition gradle_regex : Regex :=
  {| search_failing := λ _, None;
     findall_bullets := λ _, [];
     search_failed_test := λ _, Some ("a.B", "m") |}.

Definition gradle_output : string :=
  join LF ["a.B > m FAILED"; "    java.lang.AssertionError at B.java:3"].

(** Calls of [write_patch]: a first one that makes the backup, then one
    without backup whose write fails, and one whose write succeeds. *)
Definition first_call : FileIO.Call :=
  FileIO.mkCall "p1" true FileIO.Copied FileIO.Written.

Definition later_calls : list FileIO.Call :=
  [FileIO.mkCall "p2" false (FileIO.CopyFailed None)
     (FileIO.WriteFailed (Some "p"));
   FileIO.mkCall "p3" true (FileIO.CopyFailed (Some "x")) FileIO.Written].

End Inputs.

(** * Theorems *)

Import Examples.

(** * Facts about the string primitives *)

Lemma splitlines_nil s : splitlines s = [] → s = EmptyString.
Proof.
  destruct s as [|c s]; [done|]. simpl.
  destruct (is_line_boundary c).
  - destruct s as [|c2 s]; [done|]. by destruct (is_cr c && is_lf c2).
  - by destruct (splitlines s).
Qed.

Lemma join_cons_char sep c l ls :
  join sep (String c l :: ls) = String c (join sep (l :: ls)).
Proof. by destruct ls. Qed.

Lemma join_cons sep x y ys : join sep (x :: y :: ys) = x +:+ sep +:+ join sep (y :: ys).
Proof. done. Qed.

(** * The suppressible flags of the stitcher *)
Section flags.
Import ContextBuilder.

Lemma norm_index_in n idx : 0 <= idx < n → norm_index n idx = Some (Z.to_nat idx).
Proof. intros. unfold norm_index. by rewrite decide_True. Qed.

Lemma getitem_nat {A} (l : list A) (i : nat) :
  (i < length l)%nat → getitem l (Z.of_nat i) = l !! i.
Proof.
  intros. unfold getitem. rewrite norm_index_in by lia. simpl. by rewrite Nat2Z.id.
Qed.

Lemma mark_Some n flags i :
  n = Z.of_nat (length flags) →
  ∃ flags', mark n flags i = Some flags' ∧ length flags' = length flags ∧
    ∀ j b0, flags !! j = Some b0 →
      flags' !! j = Some (b0 || bool_decide (Z.of_nat j + 1 = i)).
Proof.
  intros ->. unfold mark, setitem. case_decide as Hi.
  - rewrite norm_index_in by done. simpl. eexists; split; [done|].
    split; [by rewrite length_insert|]. intros j b0 Hj.
    destruct (decide (j = Z.to_nat (i - 1))) as [->|Hne].
    + rewrite list_lookup_insert_eq; [|lia].
      rewrite bool_decide_eq_true_2 by lia. by rewrite orb_true_r.
    + rewrite list_lookup_insert_ne by done.
      rewrite bool_decide_eq_false_2 by lia. by rewrite orb_false_r.
  - eexists; split; [done|]. split; [done|]. intros j b0 Hj.
    pose proof (lookup_lt_Some _ _ _ Hj).
    rewrite bool_decide_eq_false_2 by lia. by rewrite orb_false_r.
Qed.

Lemma foldM_mark_Some n l : ∀ flags,
  n = Z.of_nat (length flags) →
  ∃ flags', foldM (mark n) flags l = Some flags' ∧ length flags' = length flags ∧
    ∀ j b0, flags !! j = Some b0 →
      flags' !! j = Some (b0 || bool_decide (Z.of_nat j + 1 ∈ l)).
Proof.
  induction l as [|i l IH]; intros flags Hn; cbn [foldM].
  - eexists; split; [done|]. split; [done|]. intros j b0 Hj.
    rewrite bool_decide_eq_false_2 by set_solver. by rewrite orb_false_r.
  - destruct (mark_Some n flags i Hn) as (f1 & -> & Hlen1 & H1). cbn [mbind option_bind].
    destruct (IH f1) as (f2 & -> & Hlen2 & H2); [congruence|].
    eexists; split; [done|]. split; [congruence|]. intros j b0 Hj.
    rewrite (H2 j _ (H1 j b0 Hj)). f_equal. rewrite <-orb_assoc. f_equal.
    apply eq_true_iff_eq. rewrite orb_true_iff, !bool_decide_eq_true.
    set_solver.
Qed.

Lemma mark_range_Some n flags rng :
  n = Z.of_nat (length flags) →
  ∃ flags', mark_range n flags rng = Some flags' ∧ length flags' = length flags ∧
    ∀ j b0, flags !! j = Some b0 →
      flags' !! j = Some (b0 || bool_decide (inside rng (Z.of_nat j + 1))).
Proof.
  intros Hn. unfold mark_range. case_decide as Hgt.
  - destruct (foldM_mark_Some n (py_range (start rng + 1) (end_ rng)) flags Hn)
      as (f & -> & Hlen & H).
    eexists; split; [done|]. split; [done|]. intros j b0 Hj.
    rewrite (H j b0 Hj). do 2 f_equal. apply bool_decide_ext.
    unfold py_range, inside. rewrite elem_of_seqZ. lia.
  - eexists; split; [done|]. split; [done|]. intros j b0 Hj.
    rewrite bool_decide_eq_false_2; [by rewrite orb_false_r|].
    unfold inside. lia.
Qed.

Lemma foldM_mark_range_Some n ranges : ∀ flags,
  n = Z.of_nat (length flags) →
  ∃ flags', foldM (mark_range n) flags ranges = Some flags' ∧
    length flags' = length flags ∧
    ∀ j b0, flags !! j = Some b0 →
      flags' !! j =
        Some (b0 || bool_decide (Exists (λ rng, inside rng (Z.of_nat j + 1)) ranges)).
Proof.
  induction ranges as [|rng ranges IH]; intros flags Hn; cbn [foldM].
  - eexists; split; [done|]. split; [done|]. intros j b0 Hj.
    rewrite bool_decide_eq_false_2; [by rewrite orb_false_r|].
    rewrite Exists_nil. tauto.
  - destruct (mark_range_Some n flags rng Hn) as (f1 & -> & Hlen1 & H1). cbn [mbind option_bind].
    destruct (IH f1) as (f2 & -> & Hlen2 & H2); [congruence|].
    eexists; split; [done|]. split; [congruence|]. intros j b0 Hj.
    rewrite (H2 j _ (H1 j b0 Hj)). f_equal. rewrite <-orb_assoc. f_equal.
    apply eq_true_iff_eq. rewrite orb_true_iff, !bool_decide_eq_true.
    rewrite Exists_cons. tauto.
Qed.

Lemma suppressible_flags_Some lines ranges :
  ∃ flags, suppressible_flags lines ranges = Some flags ∧
    length flags = length lines ∧
    ∀ j, (j < length lines)%nat →
      flags !! j =
        Some (bool_decide (suppressible ranges (Z.of_nat j + 1))).
Proof.
  unfold suppressible_flags, suppressible.
  destruct (foldM_mark_range_Some (Z.of_nat (length lines)) ranges
              (replicate (length lines) false)) as (f & Hf & Hlen & H).
  { by rewrite length_replicate. }
  exists f. split; [done|]. rewrite length_replicate in Hlen. split; [done|].
  intros j Hj. rewrite (H j false); [done|]. by apply lookup_replicate_2.
Qed.

Lemma should_keep_spec lines ranges keep flags j :
  suppressible_flags lines ranges = Some flags →
  (j < length lines)%nat →
  should_keep flags keep j =
    Some (kept ranges keep j).
Proof.
  intros Hf Hj.
  destruct (suppressible_flags_Some lines ranges) as (f & Hf' & Hlen & H).
  assert (f = flags) as -> by congruence.
  unfold should_keep. rewrite getitem_nat by lia. rewrite (H j Hj). simpl.
  f_equal. unfold kept, hidden. case_bool_decide as Hex; simpl.
  - case_bool_decide as Hk.
    + rewrite bool_decide_eq_false_2; [done|]. tauto.
    + rewrite bool_decide_eq_true_2; [done|]. tauto.
  - rewrite bool_decide_eq_false_2; [done|]. tauto.
Qed.
End flags.

Lemma splitlines_non_empty c s : splitlines (String c s) ≠ [].
Proof. intros H. by apply splitlines_nil in H. Qed.

Lemma join_splitlines s : plain_lines s = true → join LF (splitlines s) = s.
Proof.
  induction s as [|c s IH]; [done|]. cbn [plain_lines splitlines].
  destruct (is_line_boundary c) eqn:Hb.
  - intros [Hlf Hs]%andb_true_iff. destruct s as [|c2 s]; [done|].
    assert (c = ascii_of_nat 10) as ->.
    { unfold is_lf, code in Hlf. apply Nat.eqb_eq in Hlf.
      by rewrite <-(ascii_nat_embedding c), Hlf. }
    replace (is_cr (ascii_of_nat 10)) with false by done. cbn [andb].
    specialize (IH Hs).
    destruct (splitlines (String c2 s)) as [|l ls] eqn:Hsp.
    { by apply splitlines_non_empty in Hsp. }
    rewrite join_cons, IH. done.
  - intros Hs. specialize (IH Hs).
    destruct (splitlines s) as [|l ls] eqn:Hsp.
    + apply splitlines_nil in Hsp as ->. done.
    + rewrite join_cons_char. by rewrite IH.
Qed.

Section render.
Import ContextBuilder.

Lemma walk_render flags keep v : ∀ rest i g,
  (∀ j, (i ≤ j < i + length rest)%nat → should_keep flags keep j = Some (v j)) →
  walk flags keep i rest g = Some (render v i rest g).
Proof.
  induction rest as [|line rest IH]; intros i g Hv; [done|].
  cbn [walk render]. rewrite (Hv i) by (simpl; lia). cbn [mbind option_bind].
  assert (∀ g', walk flags keep (S i) rest g' = Some (render v (S i) rest g')) as IH'.
  { intros g'. apply IH. intros j Hj. apply Hv. simpl. lia. }
  destruct (v i); [by rewrite IH'|]. destruct g; by rewrite IH'.
Qed.

Lemma render_ext v w : ∀ rest i g,
  (∀ j, (i ≤ j < i + length rest)%nat → v j = w j) →
  render v i rest g = render w i rest g.
Proof.
  induction rest as [|line rest IH]; intros i g Hv; [done|].
  cbn [render]. rewrite <-(Hv i) by (simpl; lia).
  assert (∀ g', render v (S i) rest g' = render w (S i) rest g') as IH'.
  { intros g'. apply IH. intros j Hj. apply Hv. simpl. lia. }
  by rewrite !IH'.
Qed.

Lemma render_all_kept v : ∀ rest i g,
  (∀ j, (i ≤ j < i + length rest)%nat → v j = true) →
  render v i rest g = rest.
Proof.
  induction rest as [|line rest IH]; intros i g Hv; [done|].
  cbn [render]. rewrite (Hv i) by (simpl; lia). f_equal.
  apply IH. intros j Hj. apply Hv. simpl. lia.
Qed.

(** The walk splits after a kept line. *)
Lemma render_app_kept v b : ∀ a i g,
  (a ≠ [] → v (i + length a - 1)%nat = true) →
  render v i (a ++ b) g =
    render v i a g ++ render v (i + length a) b (match a with [] => g | _ => false end).
Proof.
  induction a as [|x a IH]; intros i g Hlast.
  - simpl. by rewrite Nat.add_0_r.
  - cbn [app render length].
    assert (∀ g', render v (S i) (a ++ b) g' =
              render v (S i) a g' ++ render v (i + S (length a)) b
                (match a with [] => g' | _ => false end)) as IH'.
    { intros g'. rewrite IH.
      - by replace (S i + length a)%nat with (i + S (length a))%nat by lia.
      - intros Ha. specialize (Hlast ltac:(done)).
        replace (S i + length a - 1)%nat with (i + length (x :: a) - 1)%nat; [done|].
        destruct a; [done|]. simpl. lia. }
    destruct a as [|y a].
    + simpl in Hlast. specialize (Hlast ltac:(done)).
      replace (i + 1 - 1)%nat with i in Hlast by lia. rewrite Hlast.
      simpl. by replace (i + 1)%nat with (S i) by lia.
    + destruct (v i); [by rewrite IH'|]. destruct g; by rewrite IH'.
Qed.

(** A run of hidden lines gives one placeholder, or none inside a gap. *)
Lemma render_run v b : ∀ run i,
  (∀ j, (i ≤ j < i + length run)%nat → v j = false) →
  render v i (run ++ b) true = render v (i + length run) b true.
Proof.
  induction run as [|x run IH]; intros i Hv.
  - simpl. by rewrite Nat.add_0_r.
  - cbn [app render length]. rewrite (Hv i) by (simpl; lia).
    rewrite IH; [by replace (S i + length run)%nat with (i + S (length run))%nat by lia|].
    intros j Hj. apply Hv. simpl. lia.
Qed.

Lemma render_run_first v b x run i :
  (∀ j, (i ≤ j < i + S (length run))%nat → v j = false) →
  render v i ((x :: run) ++ b) false =
    placeholder (indent_of x) :: render v (i + S (length run)) b true.
Proof.
  intros Hv. cbn [app render]. rewrite (Hv i) by lia. f_equal.
  rewrite render_run; [by replace (S i + length run)%nat with (i + S (length run))%nat by lia|].
  intros j Hj. apply Hv. lia.
Qed.

Lemma render_after_gap v i b :
  (b ≠ [] → v i = true) → render v i b true = render v i b false.
Proof.
  destruct b as [|y b]; [done|]. intros Hy. cbn [render]. by rewrite Hy.
Qed.

Lemma render_last_kept v : ∀ a i g x,
  v (i + length a)%nat = true →
  ∃ out, render v i (a ++ [x]) g = out ++ [x].
Proof.
  induction a as [|y a IH]; intros i g x Hx.
  - simpl in *. rewrite Nat.add_0_r in Hx. rewrite Hx. by exists [].
  - cbn [app render].
    assert (∀ g', ∃ out, render v (S i) (a ++ [x]) g' = out ++ [x]) as IH'.
    { intros g'. apply IH. by replace (S i + length a)%nat with (i + length (y :: a))%nat by (simpl; lia). }
    destruct (v i).
    + destruct (IH' false) as [out ->]. by exists (y :: out).
    + destruct g.
      * destruct (IH' true) as [out ->]. by exists out.
      * destruct (IH' true) as [out ->]. by eexists (_ :: out).
Qed.
End render.

Section stitch.
Import ContextBuilder.

Lemma stitch_lines_render src keep ranges :
  ∃ flags, suppressible_flags (splitlines src) ranges = Some flags ∧
    (∀ rest i g, (i + length rest ≤ length (splitlines src))%nat →
       walk flags keep i rest g = Some (render (kept ranges keep) i rest g)) ∧
    stitch_lines src keep ranges =
      Some (render (kept ranges keep) 0 (splitlines src) false).
Proof.
  destruct (suppressible_flags_Some (splitlines src) ranges) as (flags & Hf & _ & _).
  exists flags. split; [done|].
  assert (∀ rest i g, (i + length rest ≤ length (splitlines src))%nat →
       walk flags keep i rest g = Some (render (kept ranges keep) i rest g)) as Hw.
  { intros rest i g Hlen. apply walk_render. intros j Hj.
    apply (should_keep_spec (splitlines src)); [done|lia]. }
  split; [done|]. unfold stitch_lines. rewrite Hf. cbn [mbind option_bind].
  by apply Hw.
Qed.

Lemma not_suppressible_nil ln : ¬ suppressible [] ln.
Proof. unfold suppressible. rewrite Exists_nil. tauto. Qed.

Lemma kept_nil keep i : kept [] keep i = true.
Proof.
  unfold kept, hidden. rewrite bool_decide_eq_false_2; [done|].
  intros [H _]. by apply not_suppressible_nil in H.
Qed.

Lemma stitch_code_empty_ranges src keep :
  _stitch_code src keep [] = Some (join LF (splitlines src)).
Proof.
  unfold _stitch_code.
  destruct (stitch_lines_render src keep []) as (flags & _ & _ & ->).
  cbn [mbind option_bind]. rewrite render_all_kept; [done|].
  intros j _. apply kept_nil.
Qed.

Lemma kept_true ranges keep (i : nat) :
  kept ranges keep i = true ↔ ¬ hidden ranges keep (Z.of_nat i + 1).
Proof. unfold kept. by rewrite negb_true_iff, bool_decide_eq_false. Qed.

Lemma kept_false ranges keep (i : nat) :
  kept ranges keep i = false ↔ hidden ranges keep (Z.of_nat i + 1).
Proof. unfold kept. by rewrite negb_false_iff, bool_decide_eq_true. Qed.

Lemma stitch_run src keep ranges pre first_hidden run post :
  splitlines src = pre ++ (first_hidden :: run) ++ post →
  (∀ ln, Z.of_nat (length pre) < ln <= Z.of_nat (length pre + S (length run)) →
         hidden ranges keep ln) →
  (pre ≠ [] → ¬ hidden ranges keep (Z.of_nat (length pre))) →
  (post ≠ [] → ¬ hidden ranges keep (Z.of_nat (length pre + S (length run)) + 1)) →
  ∃ flags before after,
    suppressible_flags (splitlines src) ranges = Some flags ∧
    walk flags keep 0 pre false = Some before ∧
    walk flags keep (length pre + S (length run)) post false = Some after ∧
    stitch_lines src keep ranges =
      Some (before ++ [placeholder (indent_of first_hidden)] ++ after) ∧
    (∀ p x, pre = p ++ [x] → ∃ out, before = out ++ [x]) ∧
    (∀ y q, post = y :: q → ∃ out, after = y :: out).
Proof.
  intros Hsplit Hrun Hpre Hpost.
  destruct (stitch_lines_render src keep ranges) as (flags & Hf & Hw & Hs).
  set (v := kept ranges keep) in *.
  assert (length (splitlines src) =
          (length pre + S (length run) + length post)%nat) as Hlen.
  { rewrite Hsplit. rewrite !length_app. simpl. lia. }
  exists flags, (render v 0 pre false),
    (render v (length pre + S (length run)) post false).
  split; [done|]. split; [apply Hw; lia|]. split; [apply Hw; lia|].
  assert (∀ j, (0 + length pre ≤ j < 0 + length pre + S (length run))%nat →
               v j = false) as Hrun'.
  { intros j Hj. apply kept_false. apply Hrun. lia. }
  split; [|split].
  - rewrite Hs, Hsplit. rewrite render_app_kept.
    + f_equal. f_equal.
      replace (match pre with [] => false | _ => false end) with false
        by by destruct pre.
      rewrite render_run_first by done. cbn [app]. f_equal.
      apply render_after_gap. intros Hne. apply kept_true.
      replace (Z.of_nat (0 + length pre + S (length run)) + 1)
        with (Z.of_nat (length pre + S (length run)) + 1) by lia.
      by apply Hpost.
    + intros Hne. apply kept_true.
      replace (Z.of_nat (0 + length pre - 1) + 1) with (Z.of_nat (length pre)).
      * by apply Hpre.
      * destruct pre; [done|]. simpl. lia.
  - intros p x ->. apply render_last_kept. apply kept_true.
    specialize (Hpre ltac:(by destruct p)).
    by replace (Z.of_nat (0 + length p) + 1) with (Z.of_nat (length (p ++ [x])))
      by (rewrite length_app; simpl; lia).
  - intros y q ->. cbn [render].
    replace (v (length pre + S (length run))%nat) with true; [by eexists|].
    symmetry. apply kept_true. by apply Hpost.
Qed.
End stitch.

Section skeleton.
Import ContextBuilder PeripheralContextExtractor.

Lemma suppress_lines_elem (l : list Z) : ∀ (s : gset Z) z,
  z ∈ foldl (λ acc i, {[ i - 1 ]} ∪ acc) s l ↔ z ∈ s ∨ z + 1 ∈ l.
Proof.
  induction l as [|i l IH]; intros s z; cbn [foldl].
  - rewrite elem_of_nil. tauto.
  - rewrite IH, elem_of_cons, elem_of_union, elem_of_singleton.
    assert (z = i - 1 ↔ z + 1 = i) by lia. tauto.
Qed.

Lemma scan_range_elem st rng z :
  z ∈ (scan_range st rng).1 ↔ z ∈ st.1 ∨ inside rng (z + 1).
Proof.
  unfold scan_range, inside. case_decide as Hgt; cbn [fst].
  - rewrite suppress_lines_elem. unfold py_range. rewrite elem_of_seqZ.
    split; (intros [?|?]; [by left|right; lia]).
  - split; [by left|]. intros [?|?]; [done|lia].
Qed.

Lemma scan_ranges_elem ranges : ∀ st z,
  z ∈ (foldl scan_range st ranges).1 ↔ z ∈ st.1 ∨ suppressible ranges (z + 1).
Proof.
  unfold suppressible.
  induction ranges as [|rng ranges IH]; intros st z; cbn [foldl].
  - rewrite Exists_nil. tauto.
  - rewrite IH, scan_range_elem, Exists_cons. tauto.
Qed.

Lemma lines_to_suppress_elem ranges z :
  z ∈ (scan_ranges ranges).1 ↔ suppressible ranges (z + 1).
Proof.
  unfold scan_ranges. rewrite scan_ranges_elem. cbn [fst].
  rewrite elem_of_empty. tauto.
Qed.

Lemma placeholder_after_opens lines i ranges :
  opens ranges i →
  placeholder_after lines i ranges =
    [PeripheralContextExtractor.placeholder
       (match lines !! S i with
        | Some next_line => indent_of next_line
        | None => EmptyString
        end)].
Proof.
  unfold opens. induction ranges as [|rng ranges IH]; intros Hex.
  - by apply Exists_nil in Hex.
  - cbn [placeholder_after]. case_decide as Hd; [done|].
    apply Exists_cons in Hex as [?|?]; [done|]. by apply IH.
Qed.

Lemma skel_walk_app lines ranges sup b : ∀ a i,
  PeripheralContextExtractor.walk lines ranges sup i (a ++ b) =
    PeripheralContextExtractor.walk lines ranges sup i a
    ++ PeripheralContextExtractor.walk lines ranges sup (i + length a) b.
Proof.
  induction a as [|x a IH]; intros i.
  - simpl. by rewrite Nat.add_0_r.
  - cbn [app PeripheralContextExtractor.walk length]. rewrite IH.
    replace (S i + length a)%nat with (i + S (length a))%nat by lia.
    case_decide; [done|]. simpl. by rewrite app_assoc.
Qed.

Lemma skel_walk_suppressed lines ranges sup : ∀ run i,
  (∀ j, (i ≤ j < i + length run)%nat → Z.of_nat j ∈ sup) →
  PeripheralContextExtractor.walk lines ranges sup i run = [].
Proof.
  induction run as [|x run IH]; intros i Hs; [done|].
  cbn [PeripheralContextExtractor.walk]. rewrite decide_True by (apply Hs; simpl; lia).
  apply IH. intros j Hj. apply Hs. simpl. lia.
Qed.

(** The line before a run of suppressed lines opens a range. *)
Lemma opens_before_run ranges (i : nat) :
  ¬ suppressible ranges (Z.of_nat i + 1) →
  suppressible ranges (Z.of_nat i + 2) →
  opens ranges i.
Proof.
  unfold suppressible, opens, inside. rewrite !Exists_exists.
  intros Hno (rng & Hin & Hgt & Hlo & Hhi). exists rng. split; [done|].
  split; [|done].
  destruct (decide (start rng < Z.of_nat i + 1)); [|lia].
  exfalso. apply Hno. exists rng. split; [done|]. lia.
Qed.

Lemma skeleton_run src ranges pre anchor first_hidden run post :
  splitlines src = pre ++ [anchor] ++ (first_hidden :: run) ++ post →
  ¬ suppressible ranges (Z.of_nat (length pre) + 1) →
  (∀ ln, Z.of_nat (length pre) + 1 < ln
           <= Z.of_nat (length pre) + 1 + Z.of_nat (S (length run)) →
         suppressible ranges ln) →
  (post ≠ [] →
   ¬ suppressible ranges (Z.of_nat (length pre) + 1 + Z.of_nat (S (length run)) + 1)) →
  let lines := splitlines src in
  let sup := (scan_ranges ranges).1 in
  let before := PeripheralContextExtractor.walk lines ranges sup 0 pre in
  let after := PeripheralContextExtractor.walk lines ranges sup
                 (length pre + 1 + S (length run)) post in
  skeleton_lines src ranges =
    before ++ [anchor; PeripheralContextExtractor.placeholder (indent_of first_hidden)]
      ++ after ∧
  (∀ y q, post = y :: q → ∃ out, after = y :: out).
Proof.
  intros Hsplit Hanchor Hrun Hpost lines sup before after.
  split.
  - change (skeleton_lines src ranges)
      with (PeripheralContextExtractor.walk lines ranges sup 0 (splitlines src)).
    rewrite Hsplit, !skel_walk_app. fold before. f_equal.
    rewrite (skel_walk_suppressed lines ranges sup (first_hidden :: run)).
    2:{ intros j Hj. unfold sup. rewrite lines_to_suppress_elem. apply Hrun.
        simpl in Hj. lia. }
    cbn [length PeripheralContextExtractor.walk].
    rewrite decide_False.
    2:{ unfold sup. rewrite lines_to_suppress_elem. 
        by replace (Z.of_nat (0 + length pre) + 1) with (Z.of_nat (length pre) + 1) by lia. }
    rewrite placeholder_after_opens.
    2:{ apply opens_before_run.
        - by replace (Z.of_nat (0 + length pre) + 1) with (Z.of_nat (length pre) + 1) by lia.
        - apply Hrun. lia. }
    replace (lines !! S (0 + length pre)) with (Some first_hidden).
    2:{ unfold lines. rewrite Hsplit. rewrite lookup_app_r by lia.
        replace (S (0 + length pre) - length pre)%nat with 1%nat by lia. done. }
    rewrite app_nil_r. cbn [app]. by do 2 f_equal.
  - intros y q ->. unfold after. cbn [PeripheralContextExtractor.walk].
    rewrite decide_False; [by eexists|].
    unfold sup. rewrite lines_to_suppress_elem.
    specialize (Hpost ltac:(done)).
    by replace (Z.of_nat (length pre + 1 + S (length run)) + 1)
      with (Z.of_nat (length pre) + 1 + Z.of_nat (S (length run)) + 1) by lia.
Qed.
End skeleton.

(** * The scenarios of the specification *)

(** Scenario B: the range (2, 6) with must-keep line 4 gives two
    placeholders, one for line 3 and one for line 5. *)
Example scenario_B_two_placeholders :
  ContextBuilder.stitch_lines (join LF ["l1"; "l2"; "l3"; "l4"; "l5"; "l6"; "l7"])
      {[ 4 ]} [mkRange 2 6]
    = Some ["l1"; "l2"; "# ... (irrelevant code hidden)"; "l4";
            "# ... (irrelevant code hidden)"; "l6"; "l7"].
Proof. by vm_compute. Qed.

(** Scenario A: the code block of the line set {3, 7}. *)
Example scenario_A_slice_lines :
  FocusedSlicer._construct_code_block
      ["l1"; "l2"; "l3"; "l4"; "l5"; "l6"; "l7"; "l8"; "l9"; "l10"] {[ 3; 7 ]}
    = join LF ["l3"; "l7"].
Proof. by vm_compute. Qed.

(** Scenario D: two rate-limit errors, then success: three calls and two
    sleeps, of 1 and 2 seconds. *)
Example scenario_D_two_sleeps :
  Retry.wrapper 5 (QArith_base.Qmake 2 1)
      (λ k, match k with
            | 0%nat | 1%nat => Raise (HTTPError 429)
            | _ => Ok "completion"
            end)
    = Retry.mkRun (Ok "completion") 3
        [QArith_base.Qmake 1 1; QArith_base.Qmake 2 1].
Proof. by vm_compute. Qed.

Section C4.
Import ContextBuilder PeripheralContextExtractor.
(** C4 (amended): with an empty range list the mixed stitcher returns the
    lines of the source joined by line feeds, whatever the must-keep set,
    and the skeleton-only renderer returns the source text itself; the
    stitcher's result is the source text itself when every line boundary of
    the source is a line feed followed by a further character. *)
Theorem empty_ranges_rendering src keep :
  _stitch_code src keep [] = Some (join LF (splitlines src)) ∧
  _create_skeleton src [] = src ∧
  (plain_lines src = true → _stitch_code src keep [] = Some src).
Proof.
  split; [apply stitch_code_empty_ranges|]. split; [done|].
  intros Hp. rewrite stitch_code_empty_ranges. by rewrite join_splitlines.
Qed.

(** C4, witness: a two-line source without a final line feed. *)
Lemma empty_ranges_rendering_witness :
  _stitch_code (join LF ["a"; "  b"]) {[ 7 ]} []
    = Some (join LF (splitlines (join LF ["a"; "  b"]))) ∧
  _create_skeleton (join LF ["a"; "  b"]) [] = join LF ["a"; "  b"] ∧
  (plain_lines (join LF ["a"; "  b"]) = true →
   _stitch_code (join LF ["a"; "  b"]) {[ 7 ]} [] = Some (join LF ["a"; "  b"])).
Proof. apply (empty_ranges_rendering (join LF ["a"; "  b"]) {[ 7 ]}). Defined.

(** C4, counterexample: the stitcher drops the final line feed of ["a\n"]. *)
Lemma stitch_drops_trailing_newline :
  _stitch_code ("a" +:+ LF) ∅ [] = Some "a" ∧
  _stitch_code ("a" +:+ LF) ∅ [] ≠ Some ("a" +:+ LF).
Proof. split; [by vm_compute|]. vm_compute. discriminate. Qed.
End C4.

Section C6.
Import ContextBuilder.

Lemma stitch_code_total src keep ranges : is_Some (_stitch_code src keep ranges).
Proof.
  unfold _stitch_code.
  destruct (stitch_lines_render src keep ranges) as (flags & _ & _ & ->).
  by eexists.
Qed.

Lemma mark_range_empty n flags rng :
  end_ rng <= start rng → mark_range n flags rng = Some flags.
Proof. intros. unfold mark_range. by rewrite decide_False by lia. Qed.

(** C6 (amended): the stitcher never fails, also on ranges that leave the
    file; it hides line [i] exactly when [i] lies strictly inside a range
    with [end > start] and is not a must-keep line; a range with
    [end <= start] marks nothing; a range never contains its own boundary
    lines, and a boundary line of a range is hidden only when it lies
    strictly inside another range; the rendering is the walk over the
    lines with that decision. *)
Theorem stitch_hidden_iff src keep ranges :
  is_Some (_stitch_code src keep ranges) ∧
  (∃ flags, suppressible_flags (splitlines src) ranges = Some flags ∧
     ∀ i, 1 <= i <= Z.of_nat (length (splitlines src)) →
       (should_keep flags keep (Z.to_nat (i - 1)) = Some false
          ↔ hidden ranges keep i) ∧
       (should_keep flags keep (Z.to_nat (i - 1)) = Some true
          ↔ ¬ hidden ranges keep i)) ∧
  (∀ n flags rng, end_ rng <= start rng → mark_range n flags rng = Some flags) ∧
  (∀ rng, ¬ inside rng (start rng) ∧ ¬ inside rng (end_ rng)) ∧
  (∀ rng b, rng ∈ ranges → b = start rng ∨ b = end_ rng →
     hidden ranges keep b → ∃ rng', rng' ∈ ranges ∧ rng' ≠ rng ∧ inside rng' b) ∧
  stitch_lines src keep ranges
    = Some (render (kept ranges keep) 0 (splitlines src) false).
Proof.
  split; [apply stitch_code_total|]. split; [|split; [|split; [|split]]].
  - destruct (stitch_lines_render src keep ranges) as (flags & Hf & _ & _).
    exists flags. split; [done|]. intros i Hi.
    rewrite (should_keep_spec (splitlines src) ranges keep flags) by (done || lia).
    remember (Z.to_nat (i - 1)) as k eqn:Hk.
    assert (i = Z.of_nat k + 1) as -> by lia.
    rewrite <-kept_true, <-kept_false.
    split; (split; [by intros [= ->]|by intros ->]).
  - apply mark_range_empty.
  - intros rng. unfold inside. lia.
  - intros rng b Hin Hb [Hs _]. unfold suppressible in Hs.
    apply Exists_exists in Hs as (rng' & Hin' & Hins).
    exists rng'. split; [done|]. split; [|done].
    intros ->. unfold inside in Hins. lia.
  - by destruct (stitch_lines_render src keep ranges) as (flags & _ & _ & ->).
Qed.

(** C6, witness: line 2 of a three-line source under the range (1, 3). *)
Lemma stitch_hidden_iff_witness :
  1 <= 2 <= Z.of_nat (length (splitlines (join LF ["a"; "b"; "c"]))) ∧
  ∃ flags,
    suppressible_flags (splitlines (join LF ["a"; "b"; "c"])) [mkRange 1 3]
      = Some flags ∧
    (should_keep flags ∅ (Z.to_nat (2 - 1)) = Some false
       ↔ hidden [mkRange 1 3] ∅ 2).
Proof.
  split; [by vm_compute|].
  destruct (stitch_hidden_iff (join LF ["a"; "b"; "c"]) ∅ [mkRange 1 3])
    as (_ & (flags & Hf & H) & _).
  exists flags. split; [done|]. apply H. by vm_compute.
Defined.

(** C6, counterexample: both boundary lines of the range (2, 4) lie inside
    the range (1, 5) and are hidden. *)
Lemma overlap_hides_boundary :
  stitch_lines (join LF ["a"; "b"; "c"; "d"; "e"]) ∅ [mkRange 1 5; mkRange 2 4]
    = Some ["a"; "# ... (irrelevant code hidden)"; "e"] ∧
  mkRange 2 4 ∈ [mkRange 1 5; mkRange 2 4] ∧
  hidden [mkRange 1 5; mkRange 2 4] ∅ (start (mkRange 2 4)) ∧
  hidden [mkRange 1 5; mkRange 2 4] ∅ (end_ (mkRange 2 4)).
Proof.
  split; [by vm_compute|]. split; [set_solver|].
  split; apply (bool_decide_unpack _); by vm_compute.
Qed.
End C6.

(** C5 (amended): in the mixed stitcher every maximal run of hidden lines
    is replaced by exactly one placeholder, between the rendering of the
    lines before it and the rendering of the lines after it, and the
    placeholder carries the indentation of the first hidden line of the
    run; the skeleton-only renderer does the same for every maximal run of
    suppressed lines that follows a shown line. *)
Theorem hidden_run_one_placeholder :
  (∀ src keep ranges pre first_hidden run post,
     splitlines src = pre ++ (first_hidden :: run) ++ post →
     (∀ ln, Z.of_nat (length pre) < ln <= Z.of_nat (length pre + S (length run)) →
            ContextBuilder.hidden ranges keep ln) →
     (pre ≠ [] → ¬ ContextBuilder.hidden ranges keep (Z.of_nat (length pre))) →
     (post ≠ [] →
      ¬ ContextBuilder.hidden ranges keep
          (Z.of_nat (length pre + S (length run)) + 1)) →
     ∃ flags before after,
       ContextBuilder.suppressible_flags (splitlines src) ranges = Some flags ∧
       ContextBuilder.walk flags keep 0 pre false = Some before ∧
       ContextBuilder.walk flags keep (length pre + S (length run)) post false
         = Some after ∧
       ContextBuilder.stitch_lines src keep ranges =
         Some (before
               ++ [ContextBuilder.placeholder (indent_of first_hidden)]
               ++ after) ∧
       (∀ p x, pre = p ++ [x] → ∃ out, before = out ++ [x]) ∧
       (∀ y q, post = y :: q → ∃ out, after = y :: out)) ∧
  (∀ src ranges pre anchor first_hidden run post,
     splitlines src = pre ++ [anchor] ++ (first_hidden :: run) ++ post →
     ¬ ContextBuilder.suppressible ranges (Z.of_nat (length pre) + 1) →
     (∀ ln, Z.of_nat (length pre) + 1 < ln
              <= Z.of_nat (length pre) + 1 + Z.of_nat (S (length run)) →
            ContextBuilder.suppressible ranges ln) →
     (post ≠ [] →
      ¬ ContextBuilder.suppressible ranges
          (Z.of_nat (length pre) + 1 + Z.of_nat (S (length run)) + 1)) →
     let lines := splitlines src in
     let sup := (PeripheralContextExtractor.scan_ranges ranges).1 in
     let before := PeripheralContextExtractor.walk lines ranges sup 0 pre in
     let after :=
       PeripheralContextExtractor.walk lines ranges sup
         (length pre + 1 + S (length run)) post in
     PeripheralContextExtractor.skeleton_lines src ranges =
       before
       ++ [anchor; PeripheralContextExtractor.placeholder (indent_of first_hidden)]
       ++ after ∧
     (∀ y q, post = y :: q → ∃ out, after = y :: out)).
Proof. split; [apply stitch_run|apply skeleton_run]. Qed.

(** C5, witness: lines 2 and 3 hidden by the range (1, 4). *)
Lemma hidden_run_one_placeholder_witness :
  ContextBuilder.stitch_lines indented ∅ [mkRange 1 4] =
    Some (["a"] ++ [ContextBuilder.placeholder (indent_of "    b")] ++ ["d"]) ∧
  PeripheralContextExtractor.skeleton_lines indented [mkRange 1 4] =
    [] ++ ["a"; PeripheralContextExtractor.placeholder (indent_of "    b")] ++ ["d"].
Proof.
  assert (∀ ln, 1 < ln <= 3 → ContextBuilder.suppressible [mkRange 1 4] ln) as Hs.
  { intros ln Hln. assert (ln = 2 ∨ ln = 3) as [-> | ->] by lia;
      apply (bool_decide_unpack _); by vm_compute. }
  split.
  - destruct (proj1 hidden_run_one_placeholder indented ∅ [mkRange 1 4]
                ["a"] "    b" ["    c"] ["d"])
      as (flags & before & after & Hf & Hb & Ha & Hr & _).
    + by vm_compute.
    + intros ln Hln. split; [apply Hs; simpl in Hln; lia|set_solver].
    + intros _ [H _]. revert H. apply (bool_decide_unpack _). by vm_compute.
    + intros _ [H _]. revert H. apply (bool_decide_unpack _). by vm_compute.
    + rewrite Hr. vm_compute in Hf. injection Hf as <-.
      vm_compute in Hb. vm_compute in Ha. by injection Hb as <-; injection Ha as <-.
  - apply (proj2 hidden_run_one_placeholder indented [mkRange 1 4]
                [] "a" "    b" ["    c"] ["d"]).
    + by vm_compute.
    + apply (bool_decide_unpack _). by vm_compute.
    + intros ln Hln. apply Hs. simpl in Hln. lia.
    + intros _. apply (bool_decide_unpack _). by vm_compute.
Defined.

(** C5, counterexample: the hidden line is indented by four spaces, the
    visible line after it by none; both renderers indent the placeholder by
    four spaces, and no placeholder with the indentation of the following
    line occurs in either rendering. *)
Lemma placeholder_takes_hidden_indent :
  ContextBuilder.stitch_lines dedented ∅ [mkRange 1 3]
    = Some ["a"; "    # ... (irrelevant code hidden)"; "c"] ∧
  PeripheralContextExtractor.skeleton_lines dedented [mkRange 1 3]
    = ["a"; "    # ... existing code ..."; "c"] ∧
  indent_of "c" = EmptyString ∧
  (ContextBuilder.placeholder (indent_of "c")
     ∉ ["a"; "    # ... (irrelevant code hidden)"; "c"]) ∧
  (PeripheralContextExtractor.placeholder (indent_of "c")
     ∉ ["a"; "    # ... existing code ..."; "c"]).
Proof.
  split; [by vm_compute|]. split; [by vm_compute|]. split; [by vm_compute|].
  split; rewrite !elem_of_cons, elem_of_nil;
    intros [H|[H|[H|H]]]; vm_compute in H; done.
Qed.

Section C10.
Import ContextBuilder PeripheralContextExtractor.

Lemma scan_range_adjacent st rng :
  end_ rng = start rng + 1 → (scan_range st rng).1 = st.1.
Proof.
  intros He. unfold scan_range, py_range. rewrite decide_True by lia.
  cbn [fst]. by rewrite seqZ_nil by lia.
Qed.

(** C10 (amended): a range with [end = start + 1] whose start line lies in
    the file suppresses no line, and when that start line is not suppressed
    by another range the skeleton renderer inserts one placeholder right
    after it, indented as the next source line. *)
Theorem skeleton_adjacent_range src ranges rng pre anchor post :
  rng ∈ ranges →
  end_ rng = start rng + 1 →
  splitlines src = pre ++ [anchor] ++ post →
  start rng = Z.of_nat (length pre) + 1 →
  ¬ suppressible ranges (start rng) →
  (∀ st, (scan_range st rng).1 = st.1) ∧
  (∀ ln, ¬ inside rng ln) ∧
  let lines := splitlines src in
  let sup := (scan_ranges ranges).1 in
  skeleton_lines src ranges =
    PeripheralContextExtractor.walk lines ranges sup 0 pre
    ++ [anchor;
        PeripheralContextExtractor.placeholder
          (match post with
           | next_line :: _ => indent_of next_line
           | [] => EmptyString
           end)]
    ++ PeripheralContextExtractor.walk lines ranges sup (length pre + 1) post.
Proof.
  intros Hin He Hsplit Hstart Hvis.
  split; [intros st; by apply scan_range_adjacent|].
  split; [intros ln; unfold inside; lia|].
  intros lines sup.
  change (skeleton_lines src ranges)
    with (PeripheralContextExtractor.walk lines ranges sup 0 (splitlines src)).
  rewrite Hsplit, !skel_walk_app. f_equal.
  cbn [length PeripheralContextExtractor.walk].
  rewrite decide_False.
  2:{ unfold sup. rewrite lines_to_suppress_elem.
      by replace (Z.of_nat (0 + length pre) + 1) with (start rng) by lia. }
  rewrite placeholder_after_opens.
  2:{ unfold opens. apply Exists_exists. exists rng. split; [done|]. lia. }
  replace (lines !! S (0 + length pre)) with (post !! 0%nat).
  2:{ unfold lines. rewrite Hsplit. rewrite lookup_app_r by lia.
      by replace (S (0 + length pre) - length pre)%nat with 1%nat by lia. }
  rewrite app_nil_r. cbn [app]. destruct post; by do 2 f_equal.
Qed.

(** C10, witness: the range (2, 3) alone. *)
Lemma skeleton_adjacent_range_witness :
  skeleton_lines nested [mkRange 2 3]
    = ["a"] ++ ["  b"; "    # ... existing code ..."] ++ ["    c"; "d"].
Proof.
  apply (skeleton_adjacent_range nested [mkRange 2 3] (mkRange 2 3)
           ["a"] "  b" ["    c"; "d"]).
  - set_solver.
  - by vm_compute.
  - by vm_compute.
  - by vm_compute.
  - apply (bool_decide_unpack _). by vm_compute.
Defined.

(** C10, counterexample: the start line of the range (2, 3) is suppressed
    by the range (1, 4); it is not rendered and no placeholder follows it. *)
Lemma adjacent_range_inside_hidden_block :
  skeleton_lines nested [mkRange 1 4; mkRange 2 3]
    = ["a"; "  # ... existing code ..."; "d"] ∧
  end_ (mkRange 2 3) = start (mkRange 2 3) + 1 ∧
  1 <= start (mkRange 2 3) <= Z.of_nat (length (splitlines nested)) ∧
  ("  b" ∉ skeleton_lines nested [mkRange 1 4; mkRange 2 3]).
Proof.
  split; [by vm_compute|]. split; [done|]. split; [by vm_compute|].
  replace (skeleton_lines nested [mkRange 1 4; mkRange 2 3])
    with ["a"; "  # ... existing code ..."; "d"] by by vm_compute.
  rewrite !elem_of_cons, elem_of_nil. intros [H|[H|[H|H]]]; done.
Qed.
End C10.

Section C1.
Import TokenManager.

Lemma count_tokens_nonneg tm text : 0 <= count_tokens tm text.
Proof. unfold count_tokens. destruct text; lia. Qed.




(** The same with a budget of 2: two tokens of context and the notice are
    returned, 44 tokens in all. *)
Lemma truncated_context_exceeds_budget :
  available_for_context small_window [repeat_str 3070 "s"%char] EmptyString = 2 ∧
  optimize_prompt small_window [repeat_str 3070 "s"%char] "abcdef" EmptyString
    = "ab" +:+ notice ∧
  count_tokens small_window ("ab" +:+ notice) = 44.
Proof. by vm_compute. Qed.
End C1.

Section C2.
Import FocusedSlicer.

Lemma buggy_line_in_mixed_set ddg_lines cdg_lines buggy :
  buggy ∈ ContextBuilder.slice_lines_set ddg_lines cdg_lines buggy.
Proof. unfold ContextBuilder.slice_lines_set. set_solver. Qed.

(** C2 (the code misses the claim): [generate_slices] hands the two line
    sets of the queries to [_construct_code_block] as they are; for the buggy
    line 2 and the query results [[1]] and [[]] neither set holds line 2 and
    the data block is line 1 alone.  The must-keep set of
    [build_mixed_context] does hold the buggy line. *)
Theorem generate_slices_omits_buggy_line :
  slice_line_sets JsonFragment.loads (Ok "[1]") (Ok "[]") = Ok ({[ 1 ]}, ∅) ∧
  (buggy_line_no three_lines ∉ ({[ 1 ]} : gset Z)) ∧
  (buggy_line_no three_lines ∉ (∅ : gset Z)) ∧
  generate_slices JsonFragment.loads "cpg.bin" three_lines (Ok "[1]") (Ok "[]")
    = Ok ("a", "(No dependencies found or slicing failed)") ∧
  (∀ ddg_lines cdg_lines,
     buggy_line_no three_lines
       ∈ ContextBuilder.slice_lines_set ddg_lines cdg_lines (buggy_line_no three_lines)).
Proof.
  split; [by vm_compute|]. split; [set_solver|]. split; [set_solver|].
  split; [by vm_compute|]. intros. apply buggy_line_in_mixed_set.
Qed.
End C2.

Section C8.
Import Retry.

(** C8: when the first call of the wrapped function raises an HTTP error
    with a status in [400, 500) other than 429, the wrapper raises that
    error again at once: one call, no sleep. *)
Theorem client_error_not_retried {A} max_retries backoff_factor
    (func : nat → result A) status :
  calls (wrapper max_retries backoff_factor func) ≠ 0%nat →
  func 0%nat = Raise (HTTPError status) →
  400 <= status < 500 →
  status ≠ 429 →
  wrapper max_retries backoff_factor func
    = {| outcome := Raise (HTTPError status); calls := 1; sleeps := [] |}.
Proof.
  unfold wrapper. intros Hcalled Hfun Hrange Hne.
  destruct (Z.to_nat max_retries) as [|n]; [done|].
  cbn [loop]. rewrite Hfun. cbn [caught]. unfold non_retriable.
  by rewrite bool_decide_eq_true_2.
Qed.

(** C8, witness: status 404 with the default five retries. *)
Lemma client_error_not_retried_witness :
  wrapper 5 (QArith_base.Qmake 2 1) always_404
    = {| outcome := Raise (HTTPError 404); calls := 1; sleeps := [] |}.
Proof.
  apply (client_error_not_retried 5 (QArith_base.Qmake 2 1) always_404 404).
  - by vm_compute.
  - reflexivity.
  - lia.
  - lia.
Defined.

Lemma loop_retries_then_stops {A} (func : nat → result A) backoff_factor status :
  ∀ k remaining retry_count last ncalls slept,
  (∀ j, (j < k)%nat → ∃ e, func (ncalls + j)%nat = Raise e ∧ retried e) →
  func (ncalls + k)%nat = Raise (HTTPError status) →
  non_retriable status = true →
  (k < remaining)%nat →
  ∃ extra,
    loop func backoff_factor remaining retry_count last ncalls slept
      = mkRun (Raise (HTTPError status)) (ncalls + k + 1) (slept ++ extra)
    ∧ length extra = k.
Proof.
  induction k as [|k IH]; intros remaining rc last n slept Hbefore Hk Hstatus Hrem.
  - destruct remaining as [|remaining]; [lia|]. cbn [loop].
    rewrite Nat.add_0_r in Hk. rewrite Hk. cbn [caught]. rewrite Hstatus.
    exists []. split; [|done]. rewrite app_nil_r. f_equal. lia.
  - destruct remaining as [|remaining]; [lia|]. cbn [loop].
    destruct (Hbefore 0%nat ltac:(lia)) as (e & He & Hcaught & Hretry).
    rewrite Nat.add_0_r in He. rewrite He, Hcaught.
    assert (match e with HTTPError s => non_retriable s | _ => false end = false)
      as -> by (destruct e; try done; by apply Hretry).
    destruct (IH remaining (rc + 1) (Some e) (S n)
                (slept ++ [sleep_time backoff_factor (rc + 1)])) as (extra & -> & Hlen).
    + intros j Hj. destruct (Hbefore (S j) ltac:(lia)) as (e' & He' & Hr').
      exists e'. split; [|done]. by replace (S n + j)%nat with (n + S j)%nat by lia.
    + by replace (S n + k)%nat with (n + S k)%nat by lia.
    + done.
    + lia.
    + exists (sleep_time backoff_factor (rc + 1) :: extra).
      split; [|by simpl; rewrite Hlen]. rewrite <-app_assoc. f_equal. lia.
Qed.
End C8.

Section C3.
Import FileManager GopherWorkflow.

(** With an extractor that returns a block, which the sources do not have,
    an error raised after [write_patch] leaves [run_repair] with the patch
    in the target file, whether the test run is interrupted or
    [_record_patch] raises after passing tests: [run_repair] has no
    [try]/[finally].  With the extractor of the sources and the helpers
    defined, a backup left by an earlier session is what the final cleanup
    copies over the file.  A session that returns restores the content. *)
Lemma error_after_write_leaves_patch :
  (∃ st, run_repair (λ _, Some "patched") (λ _, interrupted) 3 fresh
           = (Raised KeyboardInterrupt, st)
         ∧ target (files st) = Some "patched") ∧
  (∃ st, run_repair (λ _, Some "patched") (λ _, record_undefined) 3 fresh
           = (Raised AttributeError, st)
         ∧ target (files st) = Some "patched") ∧
  (∃ st, run_repair _extract_code_block (λ _, helpers_defined) 3 stale
           = (Returned false, st)
         ∧ target (files st) = Some "v1") ∧
  (∃ st, run_repair (λ _, Some "patched") (λ _, helpers_defined) 3 fresh
           = (Returned true, st)
         ∧ target (files st) = Some "orig").
Proof. repeat split; eexists; (split; [by vm_compute|done]). Qed.

(** With both helpers undefined, as in the sources, the first round raises
    before anything is written. *)
Lemma as_written_first_round_raises :
  ∃ st, run_repair _extract_code_block (λ _, as_written) 3 fresh
          = (Raised AttributeError, st)
        ∧ target (files st) = Some "orig".
Proof. eexists; split; [by vm_compute|done]. Qed.

(** In any session, when the first round gets a code block, writes it and
    the test run raises, [run_repair] raises with the block in the file. *)
Lemma failing_test_run_leaves_patch extract env max_rounds fs raw c cs e :
  0 < max_rounds →
  round_name (env 1%nat) = Ok tt →
  completion (env 1%nat) = Ok raw →
  extract raw = Some (String c cs) →
  write_io_error (env 1%nat) = false →
  tests (env 1%nat) = Raise e →
  ∃ st, run_repair extract env max_rounds fs = (Raised e, st)
        ∧ target (files st) = Some (String c cs).
Proof.
  intros Hmax Hname Hcompl Hextract Hwrite Htests. unfold run_repair.
  destruct (Z.to_nat max_rounds) as [|n] eqn:Hn; [lia|].
  cbn [rounds]. unfold round.
  rewrite Hname, Hcompl, Hextract. cbn [falsy default].
  unfold write_patch. rewrite Hwrite, Htests. by eexists.
Qed.

(** A round keeps the backup, and a round that returns has copied it back
    over the file. *)
Lemma round_keeps_backup extract rd n st c :
  backup (files st) = Some c →
  ∀ step st', round extract rd n st = (step, st') →
    backup (files st') = Some c ∧
    (∀ b, step = Return b → target (files st') = Some c).
Proof.
  intros Hb step st'. unfold round.
  destruct (round_name rd); [|by intros [= <- <-]].
  destruct (completion rd) as [raw|e];
    [|by destruct (is_Exception e); intros [= <- <-]].
  destruct (falsy (extract raw)); [by intros [= <- <-]|].
  unfold write_patch, backup_file, restore_file. cbn [files].
  destruct (target (files st)) eqn:Ht; rewrite ?Hb; cbn [snd fst backup target].
  all: destruct (write_io_error rd); cbn [files backup target].
  all: try (destruct (record_patch rd); intros [= <- <-]; cbn [files backup target];
            by rewrite ?Hb, ?Ht).
  all: destruct (tests rd) as [res|]; [|by intros [= <- <-]].
  all: destruct (passed res); cbn [files backup target]; rewrite ?Hb.
  all: try destruct (error_message res).
  all: destruct (record_patch rd); intros [= <- <-]; cbn [files backup target snd];
       by rewrite ?Hb.
Qed.

Lemma rounds_restore extract env c : ∀ n k st ex st',
  backup (files st) = Some c →
  rounds extract env n k st = (Returned ex, st') →
  target (files st') = Some c.
Proof.
  induction n as [|n IH]; intros k st ex st' Hb; cbn [rounds].
  - intros [= <- <-]. unfold restore_file. by rewrite Hb.
  - destruct (round extract (env k) k st) as [step st1] eqn:Hr.
    destruct (round_keeps_backup extract (env k) k st c Hb step st1 Hr)
      as (Hb1 & Hret).
    destruct step; [by apply IH| |done].
    intros [= <- <-]. by apply (Hret b).
Qed.

(** Without a backup left by an earlier session, every return of
    [run_repair] leaves the original content in the file. *)
Lemma run_repair_restores_on_return extract env max_rounds fs c ex st :
  target fs = Some c → backup fs = None →
  run_repair extract env max_rounds fs = (Returned ex, st) →
  target (files st) = Some c.
Proof.
  intros Ht Hb. unfold run_repair. apply rounds_restore.
  unfold backup_file. by rewrite Ht, Hb.
Qed.
(** A round whose extractor finds no block does not touch the files and
    does not return. *)
Lemma round_without_block extract rd n st step st' :
  (∀ text, falsy (extract text) = true) →
  round extract rd n st = (step, st') →
  files st' = files st ∧ ∀ b, step ≠ Return b.
Proof.
  intros Hnone. unfold round.
  destruct (round_name rd); [|by intros [= <- <-]].
  destruct (completion rd) as [raw|e].
  - rewrite Hnone. by intros [= <- <-].
  - destruct (is_Exception e); by intros [= <- <-].
Qed.

Lemma raised_without_block extract env : ∀ n k st e st',
  (∀ text, falsy (extract text) = true) →
  rounds extract env n k st = (Raised e, st') →
  files st' = files st.
Proof.
  induction n as [|n IH]; intros k st e st' Hnone; cbn [rounds]; [done|].
  destruct (round extract (env k) k st) as [step st1] eqn:Hr.
  destruct (round_without_block _ _ _ _ _ _ Hnone Hr) as [Hf Hstep].
  destruct step as [|b|e1].
  - intros Hrest. rewrite <-Hf. by apply (IH (S k) st1 e).
  - by destruct (Hstep b).
  - by intros [= <- <-].
Qed.

(** C3 (amended): for a session on an existing target file, every exit
    path on which [run_repair] returns, success or exhaustion of the rounds,
    ends with the content of the backup in the target file: the pre-session
    content when no backup preceded the session, the content of the older
    backup otherwise.  An unhandled error raised inside a round leaves the
    target file with its pre-session content when the extractor finds no
    block in any completion, as [_extract_code_block] of the sources does:
    nothing is written before such an error. *)
Theorem session_file_content extract env max_rounds fs original exit st :
  target fs = Some original →
  run_repair extract env max_rounds fs = (exit, st) →
  match exit with
  | Returned _ => target (files st) = Some (default original (backup fs))
  | Raised _ =>
      (∀ text, falsy (extract text) = true) →
      target (files st) = Some original
  end.
Proof.
  intros Ht. unfold run_repair. destruct exit as [is_fixed|e]; intros Hrun.
  - revert Hrun. apply rounds_restore.
    cbn [files]. unfold backup_file. rewrite Ht.
    by destruct (backup fs) eqn:Hb; cbn [snd backup default].
  - intros Hnone. rewrite (raised_without_block _ _ _ _ _ _ _ Hnone Hrun).
    cbn [files]. unfold backup_file. rewrite Ht.
    by destruct (backup fs); cbn [snd target].
Qed.

(** C3, witness: the sources as they are, where [_get_round_name] is
    undefined and the first round raises, on a file without backup. *)
Lemma session_file_content_witness :
  target (files (run_repair _extract_code_block (λ _, as_written) 3 fresh).2)
  = Some "orig".
Proof.
  refine (session_file_content _extract_code_block (λ _, as_written) 3 fresh
            "orig" (Raised AttributeError)
            (run_repair _extract_code_block (λ _, as_written) 3 fresh).2
            _ _ _).
  - reflexivity.
  - reflexivity.
  - intros text. reflexivity.
Defined.

(** C3, counterexample: a backup ["v1"] left by an earlier session beside
    the file ["v2"], and a configuration without rounds: the session
    returns False with ["v1"] in the file. *)
Lemma stale_backup_replaces_content :
  target stale = Some "v2" ∧
  ∃ st, run_repair _extract_code_block (λ _, as_written) 0 stale
          = (Returned false, st)
        ∧ target (files st) = Some "v1"
        ∧ target (files st) ≠ target stale.
Proof. split; [done|]. eexists. split; [by vm_compute|]. by split. Qed.
End C3.

Section C7.
Import FileManager GopherWorkflow.

(** Whatever a round does, its prompt is composed with the result that the
    round before left. *)
Lemma round_composes_with_last extract rd round_num st :
  round_name rd = Ok tt →
  ∃ step st', round extract rd round_num st = (step, st') ∧
    composed st' = composed st ++ [(round_num, last_test_result st)].
Proof.
  intros Hname. unfold round. rewrite Hname.
  destruct (completion rd) as [raw|e];
    [|destruct (is_Exception e); by eexists _, _].
  destruct (falsy (extract raw)); [by eexists _, _|].
  destruct (write_patch _ _ _) as [[u|e] fs].
  - destruct (tests rd) as [res|e]; [|by eexists _, _].
    destruct (passed res);
      [destruct (record_patch rd); by eexists _, _|].
    destruct (error_message res); [|by eexists _, _].
    destruct (record_patch rd); by eexists _, _.
  - destruct (record_patch rd); by eexists _, _.
Qed.

(** C7 (the code misses the claim): [_extract_code_block] returns no block
    for any completion text, also one that holds a fenced block.  For every
    extractor, a round in which no block is found records the failing
    result "LLM did not return a valid code block." and continues, and the
    next round composes its prompt with that result as failure feedback. *)
Theorem stub_extracts_no_block extract rd round_num st raw_response :
  round_name rd = Ok tt →
  completion rd = Ok raw_response →
  falsy (extract raw_response) = true →
  let st1 := mkState (files st) (Some no_code_block)
               (composed st ++ [(round_num, last_test_result st)]) (statuses st) in
  (∀ text, _extract_code_block text = None) ∧
  falsy (_extract_code_block fenced) = true ∧
  round extract rd round_num st = (Continue, st1) ∧
  passed no_code_block = false ∧
  feedback_of (Some no_code_block)
    = Failure (Some "LLM did not return a valid code block.") None ∧
  (∀ rd', round_name rd' = Ok tt →
     ∃ step st2, round extract rd' (S round_num) st1 = (step, st2) ∧
       composed st2 = composed st1 ++ [(S round_num, Some no_code_block)]).
Proof.
  intros Hname Hcompl Hnone st1. split; [done|]. split; [done|]. split.
  { unfold round. by rewrite Hname, Hcompl, Hnone. }
  split; [done|]. split; [done|].
  intros rd' Hn. by apply round_composes_with_last.
Qed.

(** C7, witness: a completion with a fenced block in round 1, and the
    extractor of the sources. *)
Lemma stub_extracts_no_block_witness :
  falsy (_extract_code_block fenced) = true ∧
  round _extract_code_block helpers_defined 1
        (mkState fresh None [] [])
    = (Continue, mkState fresh (Some no_code_block) [(1%nat, None)] []).
Proof.
  destruct (stub_extracts_no_block _extract_code_block helpers_defined 1
              (mkState fresh None [] []) fenced)
    as (_ & H1 & H2 & _); [reflexivity|reflexivity|reflexivity|].
  split; [exact H1|exact H2].
Defined.
End C7.

Section C9.
Import FocusedSlicer.

Variable json_loads : string → option json.



Lemma int_error_is_Exception x e : PyInt.int x = Raise e → is_Exception e = true.
Proof.
  destruct x; cbn [PyInt.int]; try by intros [= <-].
  destruct (PyInt.int_of_str s); by intros [= <-].
Qed.

Lemma line_set_error_is_Exception data e :
  line_set data = Raise e → is_Exception e = true.
Proof.
  induction data as [|x data IH]; [done|].
  assert (bind_result (PyInt.int x)
            (λ n, bind_result (line_set data) (λ s, Ok ({[ n ]} ∪ s))) = Raise e →
          is_Exception e = true) as Hstep.
  { destruct (PyInt.int x) as [n|e'] eqn:Hx; cbn [bind_result].
    - destruct (line_set data); cbn [bind_result]; [done|].
      intros [= ->]. by apply IH.
    - intros [= <-]. by apply (int_error_is_Exception x). }
  destruct x; cbn [line_set]; try apply Hstep. apply IH.
Qed.

Lemma scan_error_is_Exception lines e :
  scan json_loads lines = Raise e → is_Exception e = true.
Proof.
  induction lines as [|l lines IH]; [done|]. cbn [scan].
  destruct (bracketed (strip l)); [|done].
  destruct (json_loads (strip l)) as [[]|]; try done.
  apply line_set_error_is_Exception.
Qed.

Lemma parse_error_is_Exception raw e :
  _parse_joern_list_output json_loads raw = Raise e → is_Exception e = true.
Proof.
  unfold _parse_joern_list_output. destruct raw; [done|].
  apply scan_error_is_Exception.
Qed.


End C9.

Section C9thm.
Import FocusedSlicer.

End C9thm.


Section C9ex.
Import FocusedSlicer.


End C9ex.

(** * Further properties: the token budget *)
Section budget.
Import TokenManager.

Lemma lower_char_idemp c : lower_char (lower_char c) = lower_char c.
Proof. destruct c as [[] [] [] [] [] [] [] []]; reflexivity. Qed.

Lemma lower_idemp s : lower (lower s) = lower s.
Proof. induction s as [|c s IH]; [done|]. cbn [lower]. by rewrite lower_char_idemp, IH. Qed.

(** X1: whatever the model name, the context window is one of the four
    configured sizes, so that the safe limit lies between 3072 and 10976
    tokens; the lookup does not depend on the case of the name. *)
Theorem model_limit_bounds (enc : Encoder) (name : string) :
  _get_model_limit name ∈ [4096; 8000; 10000; 12000] ∧
  3072 <= safe_limit (init enc name) <= 10976 ∧
  _get_model_limit (lower name) = _get_model_limit name.
Proof.
  assert (_get_model_limit name ∈ [4096; 8000; 10000; 12000]) as Hin.
  { unfold _get_model_limit, MODEL_LIMITS. cbn [first_limit].
    repeat (destruct (contains _ (lower name)); [set_solver|]). set_solver. }
  split; [done|]. split.
  - unfold safe_limit, init, OUTPUT_RESERVE. cbn [max_context_length].
    rewrite !elem_of_cons, elem_of_nil in Hin. lia.
  - unfold _get_model_limit. by rewrite lower_idemp.
Qed.

Lemma count_le_encode tm text :
  count_tokens tm text <= Z.of_nat (length (encode (encoder tm) text)).
Proof. unfold count_tokens. destruct text; lia. Qed.

Lemma truncate_text_bound tm text max_tokens from_end :
  no_growth (encoder tm) →
  0 <= max_tokens →
  count_tokens tm (_truncate_text tm text max_tokens from_end) <= max_tokens.
Proof.
  intros Hlaw Hn. unfold _truncate_text.
  case_decide as H0; [by replace max_tokens with 0 by lia|].
  case_decide as Hlen.
  { etrans; [apply count_le_encode|done]. }
  etrans; [apply count_le_encode|].
  etrans; [apply inj_le, Hlaw|].
  destruct from_end.
  - rewrite length_drop. lia.
  - rewrite length_take. lia.
Qed.

(** X2: for an encoder that satisfies [no_growth], the text that
    [_truncate_text] returns for a budget [max_tokens >= 0] counts at most
    [max_tokens] tokens and at most as many as [text] encodes to, from the
    head as from the tail. *)
Theorem truncate_within_budget tm text max_tokens from_end :
  no_growth (encoder tm) →
  0 <= max_tokens →
  count_tokens tm (_truncate_text tm text max_tokens from_end)
  <= Z.min max_tokens (Z.of_nat (length (encode (encoder tm) text))).
Proof.
  intros Hlaw Hn. apply Z.min_glb; [by apply truncate_text_bound|].
  unfold _truncate_text.
  case_decide as H0; [cbn; lia|].
  case_decide as Hlen; [apply count_le_encode|].
  etrans; [apply count_le_encode|].
  etrans; [apply inj_le, Hlaw|].
  destruct from_end.
  - rewrite length_drop. lia.
  - rewrite length_take. lia.
Qed.

Lemma chars_of_chars l : chars (of_chars l) = l.
Proof. induction l as [|c l IH]; [done|]. cbn. by rewrite IH. Qed.

Lemma char_encoder_no_growth : no_growth char_encoder.
Proof. intros ts. cbn. by rewrite chars_of_chars. Qed.

Lemma truncate_within_budget_witness :
  count_tokens small_window (_truncate_text small_window "abcdef" 2 true)
  <= Z.min 2 (Z.of_nat (length (encode (encoder small_window) "abcdef"))).
Proof.
  apply (truncate_within_budget small_window "abcdef" 2 true).
  - apply char_encoder_no_growth.
  - lia.
Defined.




(** X4: when the static parts alone count more tokens than the safe limit,
    [optimize_prompt] returns the static text joined by line feeds, whatever
    the context and the feedback. *)
Theorem static_overflow_returns_static tm static_parts ctx feedback :
  count_tokens tm (join LF static_parts) > safe_limit tm →
  optimize_prompt tm static_parts ctx feedback = join LF static_parts.
Proof.
  intros Hover. unfold optimize_prompt. cbv zeta.
  assert (0 <= count_tokens tm feedback) as Hfb.
  { unfold count_tokens. destruct feedback; lia. }
  rewrite Z.max_l by lia. unfold _truncate_text.
  rewrite (decide_True (P := 0 <= 0)) by lia. cbn [count_tokens].
  by rewrite !decide_True by lia.
Qed.

Lemma static_overflow_returns_static_witness :
  optimize_prompt small_window [repeat_str 3073 "s"%char] "abcdef" "fghi"
    = join LF [repeat_str 3073 "s"%char].
Proof.
  apply (static_overflow_returns_static small_window
           [repeat_str 3073 "s"%char] "abcdef" "fghi").
  by vm_compute.
Defined.
End budget.

(** * Further properties: the two renderers *)
Section renderers.
Import ContextBuilder.

Lemma render_kept_elem v : ∀ rest i g j x,
  rest !! j = Some x → v (i + j)%nat = true → x ∈ render v i rest g.
Proof.
  induction rest as [|y rest IH]; intros i g j x Hj Hv; [done|].
  destruct j as [|j].
  - injection Hj as ->. rewrite Nat.add_0_r in Hv. cbn [render]. rewrite Hv.
    apply list_elem_of_here.
  - cbn in Hj. assert (∀ g', x ∈ render v (S i) rest g') as IH'.
    { intros g'. apply (IH _ _ j); [done|].
      by replace (S i + j)%nat with (i + S j)%nat by lia. }
    cbn [render]. destruct (v i); [apply list_elem_of_further, IH'|].
    destruct g; [apply IH'|apply list_elem_of_further, IH'].
Qed.

(** X5: a line of the source that is a must-keep line, or that lies
    strictly inside no range, is part of the stitched rendering, whatever
    the ranges are. *)
Theorem unhidden_line_is_rendered src keep ranges ln x :
  1 <= ln →
  splitlines src !! Z.to_nat (ln - 1) = Some x →
  ln ∈ keep ∨ ¬ suppressible ranges ln →
  ∃ out, stitch_lines src keep ranges = Some out ∧ x ∈ out.
Proof.
  intros Hln Hx Hshown.
  destruct (stitch_lines_render src keep ranges) as (flags & _ & _ & ->).
  eexists. split; [done|].
  apply (render_kept_elem _ _ _ _ (Z.to_nat (ln - 1))); [done|].
  apply kept_true. unfold hidden.
  replace (Z.of_nat (0 + Z.to_nat (ln - 1)) + 1) with ln by lia. tauto.
Qed.

Lemma unhidden_line_is_rendered_witness :
  ∃ out, stitch_lines indented {[ 3 ]} [mkRange 1 4] = Some out ∧ "    c" ∈ out.
Proof.
  apply (unhidden_line_is_rendered indented {[ 3 ]} [mkRange 1 4] 3 "    c").
  - lia.
  - by vm_compute.
  - left. set_solver.
Defined.

Lemma render_lines v (lines : list string) : ∀ rest i g,
  (∀ x, x ∈ rest → x ∈ lines) →
  (length (render v i rest g) ≤ length rest)%nat ∧
  ∀ y, y ∈ render v i rest g →
    y ∈ lines ∨ ∃ x, x ∈ lines ∧ y = placeholder (indent_of x).
Proof.
  induction rest as [|x rest IH]; intros i g Hsub.
  { split; [done|]. intros y Hy. by apply elem_of_nil in Hy. }
  assert (∀ g', (length (render v (S i) rest g') ≤ length rest)%nat ∧
    ∀ y, y ∈ render v (S i) rest g' →
      y ∈ lines ∨ ∃ x, x ∈ lines ∧ y = placeholder (indent_of x)) as IH'.
  { intros g'. apply IH. intros z Hz. apply Hsub. by apply list_elem_of_further. }
  assert (x ∈ lines) as Hx by apply Hsub, list_elem_of_here.
  cbn [render]. destruct (v i).
  - destruct (IH' false) as [Hlen Hel]. split; [simpl; lia|].
    intros y [->|Hy]%elem_of_cons; [by left|by apply Hel].
  - destruct g.
    + destruct (IH' true) as [Hlen Hel]. split; [simpl; lia|done].
    + destruct (IH' true) as [Hlen Hel]. split; [simpl; lia|].
      intros y [->|Hy]%elem_of_cons; [right; eauto|by apply Hel].
Qed.

(** X6: the stitched rendering has no more lines than the source, and each
    of its lines is a line of the source or a placeholder that carries the
    indentation of a line of the source. *)
Theorem stitched_lines_come_from_source src keep ranges :
  ∃ out, stitch_lines src keep ranges = Some out ∧
    (length out ≤ length (splitlines src))%nat ∧
    ∀ y, y ∈ out →
      y ∈ splitlines src
      ∨ ∃ x, x ∈ splitlines src ∧ y = placeholder (indent_of x).
Proof.
  destruct (stitch_lines_render src keep ranges) as (flags & _ & _ & ->).
  eexists. split; [done|]. by apply render_lines.
Qed.

Lemma kept_ext ranges ranges' keep i :
  (∀ rng, rng ∈ ranges ↔ rng ∈ ranges') →
  kept ranges keep i = kept ranges' keep i.
Proof.
  intros Hsame. unfold kept. f_equal. apply bool_decide_ext.
  unfold hidden, suppressible. rewrite !Exists_exists.
  split; intros [(rng & ? & ?) ?]; (split; [|done]); exists rng;
    (split; [by apply Hsame|done]).
Qed.
End renderers.

Section skeleton_more.
Import ContextBuilder PeripheralContextExtractor.

Lemma placeholder_after_not_opens lines i ranges :
  ¬ opens ranges i → placeholder_after lines i ranges = [].
Proof.
  unfold opens. induction ranges as [|rng ranges IH]; intros Hno; [done|].
  cbn [placeholder_after]. rewrite Exists_cons in Hno.
  rewrite decide_False by tauto. apply IH. tauto.
Qed.

Lemma placeholder_after_ext lines i ranges ranges' :
  (∀ rng, rng ∈ ranges ↔ rng ∈ ranges') →
  placeholder_after lines i ranges = placeholder_after lines i ranges'.
Proof.
  intros Hsame.
  assert (opens ranges i ↔ opens ranges' i) as Hop.
  { unfold opens. rewrite !Exists_exists.
    split; intros (rng & ? & ?); exists rng; (split; [by apply Hsame|done]). }
  destruct (decide (opens ranges i)) as [Ho|Ho].
  - rewrite !placeholder_after_opens; [done|tauto|done].
  - rewrite !placeholder_after_not_opens; [done|tauto|done].
Qed.

Lemma skel_walk_ext lines ranges ranges' sup : ∀ rest i,
  (∀ rng, rng ∈ ranges ↔ rng ∈ ranges') →
  PeripheralContextExtractor.walk lines ranges sup i rest
    = PeripheralContextExtractor.walk lines ranges' sup i rest.
Proof.
  induction rest as [|x rest IH]; intros i Hsame; [done|].
  cbn [PeripheralContextExtractor.walk]. rewrite IH by done.
  by rewrite (placeholder_after_ext lines i ranges ranges').
Qed.

(** X7: both renderings depend on the set of ranges only, not on their
    order or on repetitions in the list. *)
Theorem rendering_depends_on_range_set src keep ranges ranges' :
  (∀ rng, rng ∈ ranges ↔ rng ∈ ranges') →
  _stitch_code src keep ranges = _stitch_code src keep ranges' ∧
  _create_skeleton src ranges = _create_skeleton src ranges'.
Proof.
  intros Hsame. split.
  - unfold _stitch_code.
    destruct (stitch_lines_render src keep ranges) as (f1 & _ & _ & ->).
    destruct (stitch_lines_render src keep ranges') as (f2 & _ & _ & ->).
    cbn [mbind option_bind]. do 2 f_equal. apply render_ext.
    intros j _. by apply kept_ext.
  - unfold _create_skeleton.
    destruct ranges as [|r rs], ranges' as [|r' rs']; [done| | |].
    + exfalso. apply (not_elem_of_nil r'), Hsame, list_elem_of_here.
    + exfalso. apply (not_elem_of_nil r), Hsame, list_elem_of_here.
    + f_equal. unfold skeleton_lines.
      assert ((scan_ranges (r :: rs)).1 = (scan_ranges (r' :: rs')).1) as ->.
      { apply set_eq. intros z. rewrite !lines_to_suppress_elem.
        unfold suppressible. rewrite !Exists_exists.
        split; intros (rng & ? & ?); exists rng; (split; [by apply Hsame|done]). }
      by apply skel_walk_ext.
Qed.

Lemma rendering_depends_on_range_set_witness :
  _stitch_code indented ∅ [mkRange 1 4; mkRange 2 3]
    = _stitch_code indented ∅ [mkRange 2 3; mkRange 1 4; mkRange 2 3] ∧
  _create_skeleton indented [mkRange 1 4; mkRange 2 3]
    = _create_skeleton indented [mkRange 2 3; mkRange 1 4; mkRange 2 3].
Proof.
  apply (rendering_depends_on_range_set indented ∅).
  intros rng. rewrite !elem_of_cons, !elem_of_nil. tauto.
Defined.

Lemma skel_walk_elem lines ranges sup : ∀ rest i j x,
  rest !! j = Some x → Z.of_nat (i + j) ∉ sup →
  x ∈ PeripheralContextExtractor.walk lines ranges sup i rest.
Proof.
  induction rest as [|y rest IH]; intros i j x Hj Hs; [done|].
  cbn [PeripheralContextExtractor.walk]. destruct j as [|j].
  - injection Hj as ->. rewrite Nat.add_0_r in Hs.
    rewrite decide_False by done. apply list_elem_of_here.
  - cbn in Hj.
    assert (x ∈ PeripheralContextExtractor.walk lines ranges sup (S i) rest) as IH'.
    { apply (IH _ j); [done|]. by replace (S i + j)%nat with (i + S j)%nat by lia. }
    case_decide; [done|]. apply list_elem_of_further, elem_of_app. by right.
Qed.

(** X8: the skeleton renderer keeps every line of the source that lies
    strictly inside no range. *)
Theorem skeleton_keeps_lines_outside_ranges src ranges ln x :
  1 <= ln →
  splitlines src !! Z.to_nat (ln - 1) = Some x →
  ¬ suppressible ranges ln →
  x ∈ skeleton_lines src ranges.
Proof.
  intros Hln Hx Hno. unfold skeleton_lines.
  apply (skel_walk_elem _ _ _ _ _ (Z.to_nat (ln - 1))); [done|].
  rewrite lines_to_suppress_elem.
  by replace (Z.of_nat (0 + Z.to_nat (ln - 1)) + 1) with ln by lia.
Qed.

Lemma skeleton_keeps_lines_outside_ranges_witness :
  "d" ∈ skeleton_lines indented [mkRange 1 4].
Proof.
  apply (skeleton_keeps_lines_outside_ranges indented [mkRange 1 4] 4 "d").
  - lia.
  - by vm_compute.
  - apply (bool_decide_unpack _). by vm_compute.
Defined.
End skeleton_more.

(** * Further properties: the slicer's code block *)
Section code_block.
Import FocusedSlicer.

Lemma StronglySorted_filter {A} (R : relation A) (P : A → Prop)
    `{!∀ x, Decision (P x)} l :
  StronglySorted R l → StronglySorted R (filter P l).
Proof.
  induction 1 as [|x l Hl IH Hx]; [constructor|].
  rewrite filter_cons. case_decide; [|done].
  constructor; [done|]. rewrite Forall_forall in Hx. apply Forall_forall.
  intros y [_ Hy]%list_elem_of_filter. by apply Hx.
Qed.

Lemma StronglySorted_seqZ : ∀ (n : nat) m,
  StronglySorted Z.le (seqZ m (Z.of_nat n)).
Proof.
  induction n as [|n IH]; intros m.
  { rewrite seqZ_nil by lia. constructor. }
  rewrite seqZ_cons by lia.
  replace (Z.pred (Z.of_nat (S n))) with (Z.of_nat n) by lia.
  constructor; [apply IH|]. apply Forall_forall.
  intros y Hy%elem_of_seqZ. lia.
Qed.

Lemma concat_source_line lines : ∀ numbers,
  concat (source_line lines <$> numbers)
  = omap (λ k, lines !! Z.to_nat (k - 1))
      (filter (λ k, 1 <= k <= Z.of_nat (length lines)) numbers).
Proof.
  induction numbers as [|k numbers IH]; [done|].
  rewrite fmap_cons, filter_cons. cbn [concat]. rewrite IH.
  unfold source_line at 1. cbv zeta.
  destruct (decide (1 <= k <= Z.of_nat (length lines))) as [Hin|Hout].
  - rewrite decide_True by lia.
    destruct (lookup_lt_is_Some_2 lines (Z.to_nat (k - 1))) as [x Hx]; [lia|].
    cbn [omap list_omap]. by rewrite Hx.
  - by rewrite decide_False by lia.
Qed.

Lemma sorted_lines_in_bounds (line_numbers : gset Z) (n : nat) :
  filter (λ k, 1 <= k <= Z.of_nat n) (sorted_lines line_numbers)
  = filter (λ k, k ∈ line_numbers) (seqZ 1 (Z.of_nat n)).
Proof.
  assert (∀ k, k ∈ sorted_lines line_numbers ↔ k ∈ line_numbers) as Hel.
  { intros k. unfold sorted_lines.
    by rewrite merge_sort_Permutation, elem_of_elements. }
  apply (StronglySorted_unique Z.le).
  - apply StronglySorted_filter, StronglySorted_merge_sort; apply _.
  - apply StronglySorted_filter, StronglySorted_seqZ.
  - apply NoDup_Permutation.
    + apply NoDup_filter. unfold sorted_lines.
      rewrite merge_sort_Permutation. apply NoDup_elements.
    + apply NoDup_filter, NoDup_seqZ.
    + intros k. rewrite !list_elem_of_filter, Hel, elem_of_seqZ.
      split; intros [? ?]; (split; [done || lia|done || lia]).
Qed.

(** X9: for a non-empty set of line numbers, the code block is made of the
    lines of the source whose 1-based number is in the set, each once and in
    the order of the file; numbers outside the file are skipped. *)
Theorem code_block_selects_in_file_order source_lines (line_numbers : gset Z) :
  line_numbers ≠ ∅ →
  _construct_code_block source_lines line_numbers
  = join LF (omap (λ k, source_lines !! Z.to_nat (k - 1))
       (filter (λ k, k ∈ line_numbers)
          (seqZ 1 (Z.of_nat (length source_lines))))).
Proof.
  intros Hne. unfold _construct_code_block. rewrite decide_False by done.
  by rewrite concat_source_line, sorted_lines_in_bounds.
Qed.

Lemma code_block_selects_in_file_order_witness :
  _construct_code_block ["a"; "b"; "c"] {[ 3; 1; 7; 0 ]}
  = join LF (omap (λ k, ["a"; "b"; "c"] !! Z.to_nat (k - 1))
       (filter (λ k, k ∈ ({[ 3; 1; 7; 0 ]} : gset Z))
          (seqZ 1 (Z.of_nat (length ["a"; "b"; "c"]))))).
Proof.
  apply (code_block_selects_in_file_order ["a"; "b"; "c"] {[ 3; 1; 7; 0 ]}).
  apply (bool_decide_unpack _). by vm_compute.
Defined.

(** X10: a non-empty set none of whose numbers lies in the file gives the
    empty string, not the "no dependencies" message. *)
Theorem code_block_out_of_file_is_empty source_lines (line_numbers : gset Z) :
  line_numbers ≠ ∅ →
  (∀ k, k ∈ line_numbers → k < 1 ∨ Z.of_nat (length source_lines) < k) →
  _construct_code_block source_lines line_numbers = EmptyString.
Proof.
  intros Hne Hout. unfold _construct_code_block. rewrite decide_False by done.
  rewrite concat_source_line, sorted_lines_in_bounds.
  replace (filter (λ k, k ∈ line_numbers)
             (seqZ 1 (Z.of_nat (length source_lines)))) with (@nil Z); [done|].
  symmetry. apply elem_of_nil_inv.
  intros k [Hin Hk%elem_of_seqZ]%list_elem_of_filter.
  destruct (Hout k Hin); lia.
Qed.

Lemma code_block_out_of_file_is_empty_witness :
  _construct_code_block ["a"; "b"; "c"] {[ 0; 4 ]} = EmptyString.
Proof.
  apply (code_block_out_of_file_is_empty ["a"; "b"; "c"] {[ 0; 4 ]}).
  - apply (bool_decide_unpack _). by vm_compute.
  - intros k Hk. cbn [length].
    apply elem_of_union in Hk as [Hk|Hk]; apply elem_of_singleton in Hk; lia.
Defined.

Lemma run_slicing_not_interrupted json_loads query :
  (∀ e, query = Raise e → is_Exception e = true) →
  ∃ lines, _run_slicing_strategy json_loads query = Ok lines.
Proof.
  intros Hq. unfold _run_slicing_strategy. destruct query as [raw|e].
  - cbn [bind_result].
    destruct (_parse_joern_list_output json_loads raw) as [lines|e] eqn:Hp.
    + by eexists.
    + cbn [try_except]. rewrite (parse_error_is_Exception _ _ _ Hp). by eexists.
  - cbn [bind_result try_except]. rewrite (Hq e eq_refl). by eexists.
Qed.

(** X11: for an artifact with a method name, a slicing query that raises
    an Exception does not make [generate_slices] raise: its block is the
    "no dependencies" message, and the other block is still built when the
    other query is not interrupted. *)
Theorem failed_query_gives_no_dependencies_block json_loads c cs artifact e
    cdg_query :
  method_name artifact ≠ EmptyString →
  is_Exception e = true →
  (∀ e', cdg_query = Raise e' → is_Exception e' = true) →
  ∃ cdg_lines,
    _run_slicing_strategy json_loads cdg_query = Ok cdg_lines ∧
    Analysis.generate_slices json_loads (String c cs) artifact (Raise e) cdg_query
    = Ok ("(No dependencies found or slicing failed)",
          _construct_code_block (splitlines (source_code artifact)) cdg_lines).
Proof.
  intros Hname He Hcdg.
  destruct (run_slicing_not_interrupted json_loads cdg_query Hcdg)
    as [cdg_lines Hrun].
  exists cdg_lines. split; [done|].
  unfold Analysis.generate_slices. destruct (method_name artifact); [done|].
  unfold generate_slices, slice_line_sets. rewrite Hrun.
  unfold _run_slicing_strategy. cbn [bind_result try_except]. by rewrite He.
Qed.

Lemma failed_query_gives_no_dependencies_block_witness :
  ∃ cdg_lines,
    _run_slicing_strategy JsonFragment.loads (Ok "[3, 1]") = Ok cdg_lines ∧
    Analysis.generate_slices JsonFragment.loads "cpg.bin" three_lines
      (Raise ConnectionError) (Ok "[3, 1]")
    = Ok ("(No dependencies found or slicing failed)",
          _construct_code_block (splitlines (source_code three_lines)) cdg_lines).
Proof.
  apply (failed_query_gives_no_dependencies_block JsonFragment.loads "c"%char
           "pg.bin" three_lines ConnectionError (Ok "[3, 1]")).
  - discriminate.
  - reflexivity.
  - intros e' He'. discriminate He'.
Defined.
End code_block.

Section mixed.
Import ContextBuilder FocusedSlicer.

(** X12: when neither slicing query is interrupted, [build_mixed_context]
    returns a rendering whatever the queries print or raise, and the text of
    the buggy line is one of its lines when the buggy line number lies in
    the file. *)
Theorem mixed_context_shows_buggy_line json_loads c cs artifact ddg_query
    cdg_query ranges x :
  (∀ e, ddg_query = Raise e → is_Exception e = true) →
  (∀ e, cdg_query = Raise e → is_Exception e = true) →
  1 <= buggy_line_no artifact →
  splitlines (source_code artifact) !! Z.to_nat (buggy_line_no artifact - 1)
    = Some x →
  ∃ out,
    build_mixed_context json_loads (String c cs) artifact
        ddg_query cdg_query (Ok ranges) = Ok (join LF out)
    ∧ x ∈ out.
Proof.
  intros Hddg Hcdg Hln Hx. unfold build_mixed_context, slice_line_sets.
  destruct (run_slicing_not_interrupted json_loads ddg_query Hddg) as [ddg ->].
  destruct (run_slicing_not_interrupted json_loads cdg_query Hcdg) as [cdg ->].
  cbn [bind_result]. unfold _stitch_code.
  set (keep := slice_lines_set ddg cdg (buggy_line_no artifact)).
  destruct (stitch_lines_render (source_code artifact) keep ranges)
    as (flags & _ & _ & ->).
  cbn [mbind option_bind]. eexists. split; [done|].
  apply (render_kept_elem _ _ _ _ (Z.to_nat (buggy_line_no artifact - 1)));
    [done|].
  apply kept_true. intros [_ Hnot]. apply Hnot.
  replace (Z.of_nat (0 + Z.to_nat (buggy_line_no artifact - 1)) + 1)
    with (buggy_line_no artifact) by lia.
  unfold keep, slice_lines_set. set_solver.
Qed.

Lemma mixed_context_shows_buggy_line_witness :
  ∃ out,
    build_mixed_context JsonFragment.loads "cpg.bin" three_lines
        (Ok "[1]") (Raise ConnectionError) (Ok [mkRange 1 3]) = Ok (join LF out)
    ∧ "b" ∈ out.
Proof.
  apply (mixed_context_shows_buggy_line JsonFragment.loads "c"%char "pg.bin"
           three_lines (Ok "[1]") (Raise ConnectionError) [mkRange 1 3] "b").
  - intros e He. discriminate He.
  - intros e He. by injection He as <-.
  - by vm_compute.
  - by vm_compute.
Defined.
End mixed.

(** * Further properties: the structural query of the skeleton *)
Section periphery_query.
Import PeripheryQuery.
Variable json_loads : string → option json.

Lemma collect_range_items pairs : ∀ ranges,
  collect (uncurry range_item <$> pairs) ranges
  = Ok (ranges ++ (uncurry mkRange
                    <$> filter (λ p : Z * Z, p.1 ≠ 0 ∧ p.2 ≠ 0) pairs)).
Proof.
  induction pairs as [|[s e] pairs IH]; intros ranges.
  { cbn. by rewrite app_nil_r. }
  rewrite fmap_cons, filter_cons. cbn [uncurry range_item collect].
  cbn [dict_get String.eqb Ascii.eqb Bool.eqb andb].
  unfold py_or. cbn [truthy fst snd].
  destruct (decide (s = 0)) as [->|Hs].
  - cbn [Z.eqb negb andb]. rewrite decide_False by tauto. apply IH.
  - destruct (s =? 0) eqn:Hs'; [apply Z.eqb_eq in Hs'; done|].
    cbn [negb truthy]. rewrite Hs'. cbn [negb andb].
    destruct (decide (e = 0)) as [->|He].
    + cbn [Z.eqb negb truthy]. rewrite decide_False by tauto. apply IH.
    + destruct (e =? 0) eqn:He'; [apply Z.eqb_eq in He'; done|].
      cbn [negb truthy]. rewrite He'. cbn [negb PyInt.int bind_result].
      rewrite decide_True by done. rewrite IH, fmap_cons.
      by rewrite <-app_assoc.
Qed.

Lemma collect_error_is_Exception data : ∀ ranges e,
  collect data ranges = Raise e → is_Exception e = true.
Proof.
  induction data as [|item data IH]; intros ranges e; [done|].
  destruct item; cbn [collect]; try by intros [= <-].
  destruct (truthy _ && truthy _); [|apply IH].
  destruct (PyInt.int _) as [s|e1] eqn:Hs; cbn [bind_result].
  - destruct (PyInt.int _) as [e2|e2] eqn:He in |- *; cbn [bind_result].
    + apply IH.
    + intros [= <-]. by apply int_error_is_Exception in He.
  - intros [= <-]. by apply int_error_is_Exception in Hs.
Qed.

Lemma collect_non_dict data item : ∀ ranges,
  item ∈ data → (∀ items, item ≠ JDict items) →
  ∃ e, collect data ranges = Raise e.
Proof.
  induction data as [|x data IH]; intros ranges Hin Hnd.
  { by apply elem_of_nil in Hin. }
  apply elem_of_cons in Hin as [<-|Hin].
  - destruct item; cbn [collect]; try by eexists. by destruct (Hnd items).
  - destruct x; cbn [collect]; try by eexists.
    destruct (truthy _ && truthy _); [|by apply IH].
    destruct (PyInt.int _) as [s|e1]; cbn [bind_result]; [|by eexists].
    destruct (PyInt.int _) as [e2|e2]; cbn [bind_result]; [|by eexists].
    by apply IH.
Qed.

Lemma scan_no_candidate lines :
  (∀ line data, line ∈ lines → FocusedSlicer.bracketed (strip line) = true →
     json_loads (strip line) ≠ Some (JList data)) →
  scan json_loads lines = Ok [].
Proof.
  induction lines as [|line lines IH]; intros Hno; [done|]. cbn [scan].
  assert (scan json_loads lines = Ok []) as Hrest.
  { apply IH. intros l data Hl. apply Hno. by apply list_elem_of_further. }
  destruct (FocusedSlicer.bracketed (strip line)) eqn:Hb; [|done].
  destruct (json_loads (strip line)) as [[]|] eqn:Hj; try done.
  by destruct (Hno line items (list_elem_of_here _ _) Hb).
Qed.

Lemma parse_ranges_last_line raw pre line data :
  raw ≠ EmptyString →
  splitlines (strip raw) = pre ++ [line] →
  FocusedSlicer.bracketed (strip line) = true →
  json_loads (strip line) = Some (JList data) →
  _parse_ranges json_loads raw = collect data [].
Proof.
  intros Hraw Hlines Hb Hj. unfold _parse_ranges.
  destruct raw; [done|]. rewrite Hlines, reverse_snoc. cbn [scan].
  by rewrite Hb, Hj.
Qed.

(** X13: when the last line of the query output is a bracketed list of
    items with integer [startLine] and [endLine], [_parse_ranges] returns
    their ranges in order, without the items in which one of the two numbers
    is zero; the lines before the last one are not looked at. *)
Theorem parse_ranges_reads_last_list raw pre line pairs :
  raw ≠ EmptyString →
  splitlines (strip raw) = pre ++ [line] →
  FocusedSlicer.bracketed (strip line) = true →
  json_loads (strip line) = Some (JList (uncurry range_item <$> pairs)) →
  _parse_ranges json_loads raw
  = Ok (uncurry mkRange <$> filter (λ p : Z * Z, p.1 ≠ 0 ∧ p.2 ≠ 0) pairs).
Proof.
  intros Hraw Hlines Hb Hj.
  rewrite (parse_ranges_last_line raw pre line _ Hraw Hlines Hb Hj).
  by rewrite collect_range_items.
Qed.

(** X14: when the query raises an Exception, or prints no bracketed line
    that decodes to a list, [generate_context] returns the source unchanged. *)
Theorem no_ranges_gives_source c cs artifact query :
  (∀ e, query = Raise e → is_Exception e = true) →
  (∀ raw line data, query = Ok raw → line ∈ splitlines (strip raw) →
     FocusedSlicer.bracketed (strip line) = true →
     json_loads (strip line) ≠ Some (JList data)) →
  generate_context json_loads (String c cs) artifact query
  = Ok (source_code artifact).
Proof.
  intros Hexn Hno. unfold generate_context. destruct query as [raw|e].
  - cbn [bind_result]. unfold _parse_ranges. destruct raw; [done|].
    rewrite scan_no_candidate; [done|].
    intros line data Hin. apply (Hno _ _ _ eq_refl).
    by apply elem_of_reverse.
  - cbn [bind_result]. by rewrite (Hexn e eq_refl).
Qed.

(** X15: when the list on the last line of the query output holds an item
    that is not an object, [generate_context] returns the source unchanged,
    whatever the other items are. *)
Theorem non_object_item_gives_source c cs artifact raw pre line data item :
  raw ≠ EmptyString →
  splitlines (strip raw) = pre ++ [line] →
  FocusedSlicer.bracketed (strip line) = true →
  json_loads (strip line) = Some (JList data) →
  item ∈ data → (∀ items, item ≠ JDict items) →
  generate_context json_loads (String c cs) artifact (Ok raw)
  = Ok (source_code artifact).
Proof.
  intros Hraw Hlines Hb Hj Hin Hnd. unfold generate_context.
  cbn [bind_result].
  rewrite (parse_ranges_last_line raw pre line _ Hraw Hlines Hb Hj).
  destruct (collect_non_dict data item [] Hin Hnd) as [e He]. rewrite He.
  by rewrite (collect_error_is_Exception _ _ _ He).
Qed.

End periphery_query.

Lemma parse_ranges_reads_last_list_witness :
  PeripheryQuery._parse_ranges
    (λ _, Some (JList (uncurry PeripheryQuery.range_item <$> [(2, 5); (0, 3); (7, 9)])))
    (join LF ["noise"; "[]"])
  = Ok (uncurry mkRange
          <$> filter (λ p : Z * Z, p.1 ≠ 0 ∧ p.2 ≠ 0) [(2, 5); (0, 3); (7, 9)]).
Proof.
  apply (parse_ranges_reads_last_list _ (join LF ["noise"; "[]"]) ["noise"] "[]"
           [(2, 5); (0, 3); (7, 9)]).
  - discriminate.
  - by vm_compute.
  - by vm_compute.
  - reflexivity.
Defined.

Lemma no_ranges_gives_source_witness :
  PeripheryQuery.generate_context JsonFragment.loads "cpg.bin" three_lines
    (Raise ConnectionError)
  = Ok (source_code three_lines).
Proof.
  apply (no_ranges_gives_source JsonFragment.loads "c"%char "pg.bin"
           three_lines (Raise ConnectionError)).
  - intros e He. by injection He as <-.
  - intros raw line data Hq. discriminate Hq.
Defined.

Lemma non_object_item_gives_source_witness :
  PeripheryQuery.generate_context JsonFragment.loads "cpg.bin" three_lines
    (Ok "[1, 2]")
  = Ok (source_code three_lines).
Proof.
  apply (non_object_item_gives_source JsonFragment.loads "c"%char "pg.bin"
           three_lines "[1, 2]" [] "[1, 2]" [JInt 1; JInt 2] (JInt 1)).
  - discriminate.
  - by vm_compute.
  - by vm_compute.
  - by vm_compute.
  - apply list_elem_of_here.
  - intros items Heq. discriminate Heq.
Defined.

(** * Further properties: the retry wrapper *)
Section retry_more.
Import Retry.
Context {A : Type}.







End retry_more.



(** * Further properties: the file manager and the repair session *)
Section files_more.
Import FileManager.

(** [FileManager] is [FileIO] when no copy fails, the backup is asked for
    and a failed write leaves the file as it was. *)
Lemma write_patch_without_copy_failure fs new_content io_error :
  (write_patch fs new_content io_error).2
  = (FileIO.write_patch fs new_content true FileIO.Copied
       (if io_error then FileIO.WriteFailed (target (backup_file fs).2)
        else FileIO.Written)).2
  ∧ restore_file fs
    = (match (FileIO.restore_file fs FileIO.Copied).1 with
       | Ok restored => restored
       | Raise _ => false
       end, (FileIO.restore_file fs FileIO.Copied).2).
Proof.
  split.
  - unfold write_patch, FileIO.write_patch, backup_file, FileIO.backup_file.
    destruct (target fs) eqn:Ht, (backup fs) eqn:Hb, io_error;
      cbn [snd fst target backup]; rewrite ?Ht, ?Hb; try done;
      by destruct fs; simplify_eq/=.
  - unfold restore_file, FileIO.restore_file. by destruct (backup fs).
Qed.

Lemma call_keeps_backup fs saved call :
  backup fs = Some saved → backup (FileIO.after_call fs call) = Some saved.
Proof.
  intros Hb. unfold FileIO.after_call, FileIO.write_patch, FileIO.backup_file.
  rewrite Hb.
  destruct (FileIO.create_backup call); [destruct (target fs)|];
    destruct (FileIO.write call); cbn [snd backup]; by rewrite ?Hb.
Qed.

Lemma calls_keep_backup saved : ∀ calls fs,
  backup fs = Some saved → backup (FileIO.after_calls fs calls) = Some saved.
Proof.
  unfold FileIO.after_calls.
  induction calls as [|call calls IH]; intros fs Hb; [done|].
  cbn [foldl]. by apply IH, call_keeps_backup.
Qed.

Lemma first_call_makes_backup fs original call :
  target fs = Some original →
  (backup fs = None →
   FileIO.create_backup call = true ∧ FileIO.copy call = FileIO.Copied) →
  backup (FileIO.after_call fs call) = Some (default original (backup fs)).
Proof.
  intros Ht Hfirst. destruct (backup fs) as [saved|] eqn:Hb.
  - by apply call_keeps_backup.
  - destruct (Hfirst eq_refl) as [Hc Hcp].
    unfold FileIO.after_call, FileIO.write_patch, FileIO.backup_file.
    rewrite Hc, Hcp, Ht, Hb. by destruct (FileIO.write call).
Qed.

(** X18: the backup is written once.  For an existing file, when a backup
    is there or the first call of [write_patch] asks for one and its copy
    succeeds, then after this call and any further calls, with or without
    [create_backup] and whatever copies and writes fail in them, the backup
    holds the content that it held before the first call, or the content of
    the file before the first call when there was no backup; a
    [restore_file] whose copy succeeds returns True and puts that content
    back, and one whose copy fails raises FileOperationError and leaves the
    backup as it is. *)
Theorem backup_is_written_once fs original call calls :
  target fs = Some original →
  (backup fs = None →
   FileIO.create_backup call = true ∧ FileIO.copy call = FileIO.Copied) →
  let saved := default original (backup fs) in
  let fs' := FileIO.after_calls fs (call :: calls) in
  backup fs' = Some saved ∧
  FileIO.restore_file fs' FileIO.Copied
    = (Ok true, mkFiles (Some saved) (Some saved)) ∧
  ∀ remains, FileIO.restore_file fs' (FileIO.CopyFailed remains)
          = (Raise FileOperationError, mkFiles remains (Some saved)).
Proof.
  intros Ht Hfirst saved fs'.
  assert (backup fs' = Some saved) as Hb.
  { unfold fs', FileIO.after_calls. cbn [foldl].
    by apply (calls_keep_backup saved), first_call_makes_backup. }
  split; [done|]. unfold FileIO.restore_file. by rewrite Hb.
Qed.

Lemma backup_is_written_once_witness :
  backup (FileIO.after_calls fresh (Inputs.first_call :: Inputs.later_calls))
  = Some "orig" ∧
  FileIO.restore_file
    (FileIO.after_calls fresh (Inputs.first_call :: Inputs.later_calls))
    FileIO.Copied
  = (Ok true, mkFiles (Some "orig") (Some "orig")) ∧
  ∀ remains,
    FileIO.restore_file
      (FileIO.after_calls fresh (Inputs.first_call :: Inputs.later_calls))
      (FileIO.CopyFailed remains)
    = (Raise FileOperationError, mkFiles remains (Some "orig")).
Proof.
  apply (backup_is_written_once fresh "orig" Inputs.first_call
           Inputs.later_calls).
  - reflexivity.
  - intros _. split; reflexivity.
Defined.
End files_more.

Section session_more.
Import FileManager GopherWorkflow.

Lemma backup_file_saves fs original :
  target fs = Some original →
  backup (backup_file fs).2 = Some (default original (backup fs)).
Proof.
  intros Ht. unfold backup_file. rewrite Ht.
  by destruct (backup fs) eqn:Hb; cbn [snd backup default].
Qed.

(** X19: when [run_repair] returns, with or without a fix, the target file
    holds the content that the backup held when the session began, or the
    content that the file had then when there was no backup. *)
Theorem returned_session_restores_backup extract env max_rounds fs original
    is_fixed st :
  target fs = Some original →
  run_repair extract env max_rounds fs = (Returned is_fixed, st) →
  target (files st) = Some (default original (backup fs)).
Proof.
  intros Ht. unfold run_repair. apply rounds_restore.
  by apply backup_file_saves.
Qed.

Lemma returned_session_restores_backup_witness :
  target (files (run_repair (λ _, Some "patched") (λ _, helpers_defined) 3 stale).2)
  = Some (default "v2" (backup stale)).
Proof.
  apply (returned_session_restores_backup (λ _, Some "patched")
           (λ _, helpers_defined) 3 stale "v2" true).
  - reflexivity.
  - by vm_compute.
Defined.

Lemma round_return extract rd n st b st' :
  round extract rd n st = (Return b, st') →
  b = true ∧
  ∃ res, tests rd = Ok res ∧ passed res = true ∧
    last_test_result st' = Some res ∧
    statuses st' = statuses st ++ [(n, PLAUSIBLE)].
Proof.
  unfold round. intros Hr.
  destruct (round_name rd); [|done].
  destruct (completion rd) as [raw|e]; [|by destruct (is_Exception e)].
  destruct (falsy (extract raw)); [done|].
  destruct (write_patch _ _ _) as [[u|e] fs].
  - destruct (tests rd) as [res|e]; [|done].
    destruct (passed res) eqn:Hp.
    + destruct (record_patch rd); [|done]. injection Hr as <- <-.
      split; [done|]. by exists res.
    + destruct (error_message res); [|done]. by destruct (record_patch rd).
  - by destruct (record_patch rd).
Qed.

Lemma rounds_return_true extract env : ∀ n k st st',
  rounds extract env n k st = (Returned true, st') →
  ∃ res j, (k ≤ j < k + n)%nat ∧ tests (env j) = Ok res ∧ passed res = true ∧
    last_test_result st' = Some res ∧
    last (statuses st') = Some (j, PLAUSIBLE).
Proof.
  induction n as [|n IH]; intros k st st'; cbn [rounds]; [done|].
  destruct (round extract (env k) k st) as [step st1] eqn:Hr.
  destruct step as [|b|e]; [| |done].
  - intros (res & j & Hj & H)%IH. exists res, j. split; [lia|done].
  - intros [= -> ->].
    apply round_return in Hr as (_ & res & Ht & Hp & Hl & Hs).
    exists res, k. split; [lia|]. by rewrite Hs, last_snoc.
Qed.

(** X20: [run_repair] returns True only after a round, one of the
    [max_rounds] rounds, whose test run passed; that result is the last
    one, and the last patch recorded is the PLAUSIBLE one of that round. *)
Theorem fix_means_passed_tests extract env max_rounds fs st :
  run_repair extract env max_rounds fs = (Returned true, st) →
  ∃ res j, 1 <= Z.of_nat j <= max_rounds ∧
    tests (env j) = Ok res ∧ passed res = true ∧
    last_test_result st = Some res ∧
    last (statuses st) = Some (j, PLAUSIBLE).
Proof.
  unfold run_repair. intros (res & j & Hj & H)%rounds_return_true.
  exists res, j. split; [lia|done].
Qed.

Lemma fix_means_passed_tests_witness :
  ∃ res j, 1 <= Z.of_nat j <= 3 ∧
    tests helpers_defined = Ok res ∧ passed res = true ∧
    last_test_result
      (run_repair (λ _, Some "patched") (λ _, helpers_defined) 3 fresh).2
    = Some res ∧
    last (statuses
            (run_repair (λ _, Some "patched") (λ _, helpers_defined) 3 fresh).2)
    = Some (j, PLAUSIBLE).
Proof.
  apply (fix_means_passed_tests (λ _, Some "patched") (λ _, helpers_defined) 3
           fresh).
  by vm_compute.
Defined.

Lemma stub_round rd n st :
  ∃ step st', round _extract_code_block rd n st = (step, st') ∧
    (∀ b, step ≠ Return b) ∧
    files st' = files st ∧ statuses st' = statuses st ∧
    (last_test_result st' = last_test_result st
     ∨ last_test_result st' = Some no_code_block).
Proof.
  unfold round.
  destruct (round_name rd);
    [|eexists _, _; (split; [done|]); repeat split; by eauto].
  destruct (completion rd) as [raw|e].
  - cbn [_extract_code_block falsy]. eexists _, _. split; [done|].
    repeat split; by eauto.
  - destruct (is_Exception e); eexists _, _; (split; [done|]);
      repeat split; by eauto.
Qed.

Lemma stub_rounds env : ∀ n k st,
  ∃ ex st', rounds _extract_code_block env n k st = (ex, st') ∧
    ex ≠ Returned true ∧
    backup (files st') = backup (files st) ∧ statuses st' = statuses st ∧
    (last_test_result st' = last_test_result st
     ∨ last_test_result st' = Some no_code_block).
Proof.
  induction n as [|n IH]; intros k st; cbn [rounds].
  - eexists _, _. split; [done|]. split; [done|]. cbn [files statuses].
    split; [|by eauto]. unfold restore_file.
    by destruct (backup (files st)) eqn:Hb.
  - destruct (stub_round (env k) k st) as (step & st1 & -> & Hstep & Hf & Hs & Hl).
    destruct step as [|b|e].
    + destruct (IH (S k) st1) as (ex & st' & -> & Hex & Hf' & Hs' & Hl').
      eexists _, _. split; [done|]. split; [done|].
      rewrite Hf', Hs', Hf, Hs. split; [done|]. split; [done|].
      destruct Hl' as [->|]; [done|by right].
    + by destruct (Hstep b).
    + eexists _, _. split; [done|]. split; [done|]. by rewrite Hf, Hs.
Qed.

(** X21: with [_extract_code_block] as the sources have it, no session
    returns True, whatever the collaborators do: no patch is recorded, and
    the only test result that a round leaves is the one for a missing code
    block. *)
Theorem stub_session_never_fixes env max_rounds fs :
  let run := run_repair _extract_code_block env max_rounds fs in
  run.1 ≠ Returned true ∧
  statuses run.2 = [] ∧
  (last_test_result run.2 = None
   ∨ last_test_result run.2 = Some no_code_block).
Proof.
  intros run. unfold run, run_repair.
  destruct (stub_rounds env (Z.to_nat max_rounds) 1
              (mkState (backup_file fs).2 None [] []))
    as (ex & st' & -> & Hex & _ & Hs & Hl).
  done.
Qed.

Lemma round_composed extract rd n st :
  ∃ step st', round extract rd n st = (step, st') ∧
    (composed st' = composed st ++ [(n, last_test_result st)]
     ∨ (composed st' = composed st ∧ ∃ e, step = Unhandled e)).
Proof.
  unfold round. destruct (round_name rd).
  2: { eexists _, _. split; [done|]. right. eauto. }
  destruct (completion rd) as [raw|e];
    [|destruct (is_Exception e); eexists _, _; eauto].
  destruct (falsy (extract raw)); [eexists _, _; eauto|].
  destruct (write_patch _ _ _) as [[u|e] fs].
  - destruct (tests rd) as [res|e]; [|eexists _, _; eauto].
    destruct (passed res);
      [destruct (record_patch rd); eexists _, _; eauto|].
    destruct (error_message res); [|eexists _, _; eauto].
    destruct (record_patch rd); eexists _, _; eauto.
  - destruct (record_patch rd); eexists _, _; eauto.
Qed.

Lemma rounds_composed extract env : ∀ n k st,
  ∃ m, (m ≤ n)%nat ∧
    (composed (rounds extract env n k st).2).*1
    = (composed st).*1 ++ seq k m.
Proof.
  induction n as [|n IH]; intros k st; cbn [rounds].
  - exists 0%nat. split; [done|]. cbn [snd composed seq]. by rewrite app_nil_r.
  - destruct (round_composed extract (env k) k st)
      as (step & st1 & -> & [Hc|[Hc [e ->]]]).
    + destruct step as [|b|e].
      * destruct (IH (S k) st1) as (m & Hm & ->). exists (S m).
        split; [lia|]. rewrite Hc, fmap_app, <-app_assoc. done.
      * exists 1%nat. split; [lia|]. cbn [snd]. rewrite Hc, fmap_app. done.
      * exists 1%nat. split; [lia|]. cbn [snd]. rewrite Hc, fmap_app. done.
    + exists 0%nat. split; [lia|]. cbn [snd seq]. by rewrite Hc, app_nil_r.
Qed.

(** X22: a session composes at most one prompt per round and at most
    [max_rounds] prompts, for the rounds 1, 2, ... in this order. *)
Theorem prompts_follow_round_order extract env max_rounds fs :
  ∃ m, Z.of_nat m <= Z.max 0 max_rounds ∧
    (composed (run_repair extract env max_rounds fs).2).*1 = seq 1 m.
Proof.
  unfold run_repair.
  destruct (rounds_composed extract env (Z.to_nat max_rounds) 1
              (mkState (backup_file fs).2 None [] [])) as (m & Hm & ->).
  exists m. split; [lia|done].
Qed.
End session_more.

(** * Further properties: the analysis phase, the composer, the test
    runner and the main loop *)
Section analysis_more.
Import Session Analysis.
Variable json_loads : string → option json.

(** X23: when the graph cannot be used, because its generation raises an
    Exception, or its path is empty, or the artifact has no method name,
    the session goes on with the empty context. *)
Theorem no_graph_gives_empty_context artifact cpg ddg_query cdg_query
    skeleton_query :
  (∀ e, cpg = Raise e → is_Exception e = true) →
  (∀ cpg_path, cpg = Ok cpg_path →
     cpg_path = EmptyString ∨ method_name artifact = EmptyString) →
  analysis_phase json_loads artifact cpg ddg_query cdg_query skeleton_query
    = Ok empty_context
  ∧ is_empty empty_context = true.
Proof.
  intros Hexn Hpath. split; [|done]. unfold analysis_phase.
  destruct cpg as [cpg_path|e].
  - cbn [bind_result]. unfold generate_slices.
    destruct cpg_path as [|c cs]; [done|].
    destruct (Hpath _ eq_refl) as [|Hname]; [done|]. by rewrite Hname.
  - cbn [bind_result try_except]. by rewrite (Hexn e eq_refl).
Qed.

(** X24: when the graph is there and the artifact has a method name, but
    the three queries raise Exceptions, the context is not empty: both
    slices are the "no dependencies" message and the peripheral context is
    the whole source. *)
Theorem failed_queries_give_whole_source artifact c cs e1 e2 e3 :
  method_name artifact ≠ EmptyString →
  is_Exception e1 = true → is_Exception e2 = true → is_Exception e3 = true →
  analysis_phase json_loads artifact (Ok (String c cs))
    (Raise e1) (Raise e2) (Raise e3)
  = Ok (mkContext "(No dependencies found or slicing failed)"
                  "(No dependencies found or slicing failed)"
                  (source_code artifact)).
Proof.
  intros Hname H1 H2 H3. unfold analysis_phase, generate_slices.
  destruct (method_name artifact); [done|]. cbn [bind_result].
  unfold FocusedSlicer.generate_slices, FocusedSlicer.slice_line_sets,
    FocusedSlicer._run_slicing_strategy, PeripheryQuery.generate_context.
  cbn [bind_result try_except]. rewrite H1, H2, H3. done.
Qed.
End analysis_more.

Lemma no_graph_gives_empty_context_witness :
  Analysis.analysis_phase JsonFragment.loads three_lines
    (Raise (RuntimeError "Joern parse command failed."))
    (Ok "[1]") (Ok "[2]") (Ok "[]")
  = Ok Analysis.empty_context
  ∧ Session.is_empty Analysis.empty_context = true.
Proof.
  apply (no_graph_gives_empty_context JsonFragment.loads three_lines
           (Raise (RuntimeError "Joern parse command failed."))
           (Ok "[1]") (Ok "[2]") (Ok "[]")).
  - intros e He. by injection He as <-.
  - intros cpg_path Hp. discriminate Hp.
Defined.

Lemma failed_queries_give_whole_source_witness :
  Analysis.analysis_phase JsonFragment.loads three_lines (Ok "cpg.bin")
    (Raise ConnectionError) (Raise ValueError) (Raise (RuntimeError "x"))
  = Ok (Session.mkContext "(No dependencies found or slicing failed)"
          "(No dependencies found or slicing failed)"
          (source_code three_lines)).
Proof.
  apply (failed_queries_give_whole_source JsonFragment.loads three_lines
           "c"%char "pg.bin" ConnectionError ValueError (RuntimeError "x"));
    [discriminate|reflexivity..].
Defined.

Section composer_more.
Import Session PromptComposer.


(** X26: the prompt depends on the context only in the rounds 2 and 3,
    and on the previous test result only when that result failed: in any
    other round, after no result or a passed one, it is the first prompt of
    a session. *)
Theorem other_rounds_prompt_as_first tm tpl artifact context context'
    round_num test_result :
  round_num ≠ 2 → round_num ≠ 3 →
  (∀ res, test_result = Some res → GopherWorkflow.passed res = true) →
  construct_prompt tm tpl artifact context round_num test_result
  = construct_prompt tm tpl artifact context' 1 None.
Proof.
  intros H2 H3 Hres. unfold construct_prompt, context_text, feedback_text.
  rewrite (decide_False (P := round_num = 2)) by done.
  rewrite (decide_False (P := round_num = 3)) by done.
  rewrite (decide_True (P := 1 = 1)) by done.
  assert (GopherWorkflow.feedback_of test_result = GopherWorkflow.feedback_of None)
    as ->.
  { destruct test_result as [res|]; [|done]. cbn [GopherWorkflow.feedback_of].
    by rewrite (Hres res eq_refl). }
  by destruct (decide (round_num = 1)).
Qed.

Lemma other_rounds_prompt_as_first_witness :
  construct_prompt small_window Inputs.plain_templates three_lines Inputs.sliced 4
    (Some passing)
  = construct_prompt small_window Inputs.plain_templates three_lines
      Analysis.empty_context 1 None.
Proof.
  apply (other_rounds_prompt_as_first small_window Inputs.plain_templates
           three_lines Inputs.sliced Analysis.empty_context 4 (Some passing)).
  - lia.
  - lia.
  - intros res [= <-]. reflexivity.
Defined.
End composer_more.

Section runner_more.
Import GopherWorkflow TestRunner.

(** X27: every result of [run_tests] that did not pass carries an error
    message and the name of a failed test, and every result that passed
    carries neither: the message that [run_repair] slices is there. *)
Theorem failing_run_has_message re artifact compile test run :
  let res := run_tests re artifact compile test run in
  (passed res = true ∧ error_message res = None ∧ failed_test_name res = None)
  ∨ (passed res = false ∧
     ∃ msg name, error_message res = Some msg ∧ failed_test_name res = Some name).
Proof.
  intros res. unfold res, run_tests.
  destruct (runner_of (project_name artifact)).
  - unfold _run_defects4j. case_decide; [right; eauto|].
    unfold _parse_defects4j_output.
    destruct (contains _ _); [by left|].
    destruct (search_failing re _); right; eauto.
  - unfold _run_gradle_test. case_decide; [by left|]. right.
    unfold _parse_gradle_output. eauto.
  - unfold _run_quixbugs. case_decide; [by left|]. right.
    unfold _parse_python_traceback. destruct (splitlines _); eauto.
Qed.

Lemma capture_errors_bound failed_test : ∀ lines capture error_lines,
  (length error_lines ≤ 5)%nat →
  (length (capture_errors failed_test lines capture error_lines) ≤ 6)%nat.
Proof.
  induction lines as [|line lines IH]; intros capture error_lines Hlen.
  { cbn [capture_errors]. lia. }
  cbn [capture_errors].
  destruct (capture || _); [|by apply IH].
  destruct (contains "Exception" line || contains "Error" line
            || contains "at " line).
  - destruct (5 <? length (error_lines ++ [strip line]))%nat eqn:Hfull.
    + rewrite length_app. simpl. lia.
    + apply IH. by apply Nat.ltb_ge in Hfull.
  - destruct (5 <? length error_lines)%nat eqn:Hfull; [lia|by apply IH].
Qed.

Lemma capture_errors_from_lines failed_test : ∀ lines capture error_lines l,
  l ∈ capture_errors failed_test lines capture error_lines →
  l ∈ error_lines ∨ ∃ line, line ∈ lines ∧ l = strip line.
Proof.
  induction lines as [|line lines IH]; intros capture error_lines l;
    cbn [capture_errors]; [by left|].
  assert (∀ c el, l ∈ capture_errors failed_test lines c el →
            l ∈ el ∨ ∃ line', line' ∈ line :: lines ∧ l = strip line') as IH'.
  { intros c el [?|(line' & ? & ?)]%IH; [by left|right].
    exists line'. split; [by apply list_elem_of_further|done]. }
  destruct (capture || _); [|apply IH'].
  destruct (contains "Exception" line || contains "Error" line
            || contains "at " line).
  - assert (l ∈ error_lines ++ [strip line] →
            l ∈ error_lines ∨ ∃ line', line' ∈ line :: lines ∧ l = strip line')
      as Happ.
    { intros [?|Hl%list_elem_of_singleton]%elem_of_app; [by left|right].
      subst l.
      exists line. split; [apply list_elem_of_here|done]. }
    destruct (5 <? _)%nat; [done|].
    intros [?|?]%IH'; [by apply Happ|by right].
  - destruct (5 <? _)%nat; [by left|apply IH'].
Qed.

(** X28: the error message of a failed Gradle run is made of at most six
    lines, each a line of the output with its surrounding whitespace
    removed, or it is the text "Tests failed (check logs)". *)
Theorem gradle_message_at_most_six_lines re stdout stderr :
  ∃ error_lines,
    error_message (_parse_gradle_output re stdout stderr)
    = Some (match error_lines with
            | [] => "Tests failed (check logs)"
            | _ => join LF error_lines
            end)
    ∧ (length error_lines ≤ 6)%nat
    ∧ ∀ l, l ∈ error_lines → ∃ line, line ∈ splitlines stdout ∧ l = strip line.
Proof.
  unfold _parse_gradle_output. cbv zeta. eexists. split; [done|]. split.
  - apply capture_errors_bound. simpl. lia.
  - intros l [Hl|?]%capture_errors_from_lines; [|done].
    by apply elem_of_nil in Hl.
Qed.

Lemma capture_errors_never_started failed_test : ∀ lines error_lines,
  (∀ line, line ∈ lines →
     contains "FAILED" line && contains failed_test line = false) →
  capture_errors failed_test lines false error_lines = error_lines.
Proof.
  induction lines as [|line lines IH]; intros error_lines Hno; [done|].
  cbn [capture_errors]. rewrite (Hno line) by apply list_elem_of_here.
  cbn [orb]. apply IH. intros l Hl. apply Hno. by apply list_elem_of_further.
Qed.

(** X29: the capture of error lines starts only at a line that holds both
    "FAILED" and the reported test name, which is [class::method] when the
    pattern matched; without such a line the message is "Tests failed
    (check logs)". *)
Theorem gradle_capture_needs_joined_name re stdout stderr :
  let res := _parse_gradle_output re stdout stderr in
  (∀ line name, line ∈ splitlines stdout → failed_test_name res = Some name →
     contains "FAILED" line && contains name line = false) →
  error_message res = Some "Tests failed (check logs)".
Proof.
  intros res Hno. unfold res, _parse_gradle_output in *. cbv zeta in *.
  cbn [failed_test_name error_message] in *.
  rewrite capture_errors_never_started; [done|].
  intros line Hline. by apply Hno.
Qed.

Lemma gradle_capture_needs_joined_name_witness :
  error_message
    (_parse_gradle_output Inputs.gradle_regex Inputs.gradle_output EmptyString)
  = Some "Tests failed (check logs)".
Proof.
  apply (gradle_capture_needs_joined_name Inputs.gradle_regex
           Inputs.gradle_output EmptyString).
  intros line name Hline [= <-].
  change (line ∈ ["a.B > m FAILED"; "    java.lang.AssertionError at B.java:3"])
    in Hline.
  apply elem_of_cons in Hline as [->|Hline]; [by vm_compute|].
  apply list_elem_of_singleton in Hline as ->. by vm_compute.
Defined.
End runner_more.

Section main_more.
Import GopherWorkflow Main.

(** X30: the main loop handles the runs up to the first interrupt and
    none after it; each of these runs is entered once, under "fixed" when
    [run_repair] returned True, under "failed" when it returned False and
    under "errors" when it raised an Exception, in the order of the runs. *)
Theorem repair_all_tally processed rest results :
  (∀ run, run ∈ processed → interrupts run = false) →
  (∀ run, head rest = Some run → interrupts run = true) →
  repair_all (processed ++ rest) results
  = mkResults (fixed results ++ identifiers (returned true) processed)
              (failed results ++ identifiers (returned false) processed)
              (errors results ++ identifiers raised_exception processed).
Proof.
  revert results.
  induction processed as [|[artifact exit] processed IH]; intros results Hp Hr.
  - cbn [app]. unfold identifiers. cbn. rewrite !app_nil_r.
    destruct rest as [|[artifact exit] rest]; [by destruct results|].
    pose proof (Hr _ eq_refl) as Hi. unfold interrupts in Hi. cbn in Hi.
    cbn [repair_all]. destruct exit as [b|e]; [done|].
    destruct e; try done. by destruct results.
  - assert (interrupts (artifact, exit) = false) as Hi
      by apply Hp, list_elem_of_here.
    assert (∀ run, run ∈ processed → interrupts run = false) as Hp'
      by (intros run Hrun; by apply Hp, list_elem_of_further).
    unfold interrupts in Hi. cbn in Hi.
    cbn [app repair_all]. unfold identifiers.
    destruct exit as [[]|e].
    + rewrite IH by done. cbn [fixed failed errors]. unfold identifiers.
      rewrite (filter_cons_True (λ run, returned true run = true)) by done.
      rewrite (filter_cons_False (λ run, returned false run = true)) by done.
      rewrite (filter_cons_False (λ run, raised_exception run = true)) by done.
      by rewrite fmap_cons, <-app_assoc.
    + rewrite IH by done. cbn [fixed failed errors]. unfold identifiers.
      rewrite (filter_cons_False (λ run, returned true run = true)) by done.
      rewrite (filter_cons_True (λ run, returned false run = true)) by done.
      rewrite (filter_cons_False (λ run, raised_exception run = true)) by done.
      by rewrite fmap_cons, <-app_assoc.
    + assert (is_Exception e = true) as He by (by destruct (is_Exception e)).
      rewrite (filter_cons_False (λ run, returned true run = true)) by done.
      rewrite (filter_cons_False (λ run, returned false run = true)) by done.
      rewrite (filter_cons_True (λ run, raised_exception run = true)) by done.
      destruct e; try done; rewrite IH by done; cbn [fixed failed errors];
        unfold identifiers; by rewrite fmap_cons, <-app_assoc.
Qed.

Lemma repair_all_tally_witness :
  repair_all
    ([(three_lines, Returned true); (three_lines, Raised AttributeError);
      (three_lines, Returned false)]
     ++ [(three_lines, Raised KeyboardInterrupt); (three_lines, Returned true)])
    (mkResults [] [] [])
  = mkResults
      ([] ++ identifiers (returned true)
         [(three_lines, Returned true); (three_lines, Raised AttributeError);
          (three_lines, Returned false)])
      ([] ++ identifiers (returned false)
         [(three_lines, Returned true); (three_lines, Raised AttributeError);
          (three_lines, Returned false)])
      ([] ++ identifiers raised_exception
         [(three_lines, Returned true); (three_lines, Raised AttributeError);
          (three_lines, Returned false)]).
Proof.
  apply (repair_all_tally
           [(three_lines, Returned true); (three_lines, Raised AttributeError);
            (three_lines, Returned false)]
           [(three_lines, Raised KeyboardInterrupt); (three_lines, Returned true)]
           (mkResults [] [] [])).
  - intros run Hrun.
    repeat (apply elem_of_cons in Hrun as [->|Hrun]; [reflexivity|]).
    by apply elem_of_nil in Hrun.
  - intros run [= <-]. reflexivity.
Defined.
End main_more.
